(** * Review mood: keyword sentiment classifier and review store

    A shallow embedding of [app.py]: the keyword classifier
    [SentimentChecker.check], the [Review] record, the SQLite-backed
    [ReviewRepository], the [ReviewService] built on both, [init_db], and
    the two views with the application context they run in.

    Python values are modelled as follows.
    - [str] is the sequence of Unicode code points of a Python string, each
      code point an integer ([Z]).
    - [int] is [Z]; occurrence counts, which are never negative, are [nat].
    - Exceptions are the [Raise] results of a state-and-error monad whose
      state is the connection to [reviews.db]. *)

From Stdlib Require String Ascii.
From Stdlib Require Import ZArith List Bool Lia Sorted Permutation.
Import ListNotations String.StringSyntax.

Local Open Scope Z_scope.

(** ** Strings *)

Definition str := list Z.

Fixpoint str_eqb (a b : str) : bool :=
  match a, b with
  | [], [] => true
  | x :: a', y :: b' => (x =? y) && str_eqb a' b'
  | _, _ => false
  end.

(** Source literals are written as UTF-8 text and decoded to code points. *)
Fixpoint utf8_decode (pending : nat) (acc : Z) (bs : list Z) : str :=
  match bs with
  | [] => []
  | b :: rest =>
      if b <? 0x80 then b :: utf8_decode 0 0 rest
      else if b <? 0xC0 then
        let acc' := acc * 64 + (b - 0x80) in
        match pending with
        | 1%nat => acc' :: utf8_decode 0 0 rest
        | _ => utf8_decode (Nat.pred pending) acc' rest
        end
      else if b <? 0xE0 then utf8_decode 1 (b - 0xC0) rest
      else if b <? 0xF0 then utf8_decode 2 (b - 0xE0) rest
      else utf8_decode 3 (b - 0xF0) rest
  end.

Definition u (s : String.string) : str :=
  utf8_decode 0 0
    (map (fun a => Z.of_N (Ascii.N_of_ascii a)) (String.list_ascii_of_string s)).

Arguments u s%_string_scope.

(** ** [str.lower]

    CPython lowercases a string code point by code point
    ([do_lower] in [unicodeobject.c]).  Every code point is replaced by its
    full lowercase mapping; capital sigma (U+03A3) is the one code point
    whose image depends on its neighbours.  The three tables are those of
    the Unicode 14.0 character database, as shipped with CPython 3.11. *)

(** Simple lowercase mappings: every code point [c] with
    [lo <= c <= hi] and [(c - lo) mod stride = 0] maps to [c + delta]. *)
Definition lower_table : list (Z * Z * Z * Z) := [
  (0x41, 0x5A, 1, 32); (0xC0, 0xD6, 1, 32); (0xD8, 0xDE, 1, 32); (0x100, 0x12E, 2, 1);
  (0x132, 0x136, 2, 1); (0x139, 0x147, 2, 1); (0x14A, 0x176, 2, 1); (0x178, 0x178, 1, (-121));
  (0x179, 0x17D, 2, 1); (0x181, 0x181, 1, 210); (0x182, 0x184, 2, 1); (0x186, 0x186, 1, 206);
  (0x187, 0x187, 1, 1); (0x189, 0x18A, 1, 205); (0x18B, 0x18B, 1, 1); (0x18E, 0x18E, 1, 79);
  (0x18F, 0x18F, 1, 202); (0x190, 0x190, 1, 203); (0x191, 0x191, 1, 1); (0x193, 0x193, 1, 205);
  (0x194, 0x194, 1, 207); (0x196, 0x196, 1, 211); (0x197, 0x197, 1, 209); (0x198, 0x198, 1, 1);
  (0x19C, 0x19C, 1, 211); (0x19D, 0x19D, 1, 213); (0x19F, 0x19F, 1, 214); (0x1A0, 0x1A4, 2, 1);
  (0x1A6, 0x1A6, 1, 218); (0x1A7, 0x1A7, 1, 1); (0x1A9, 0x1A9, 1, 218); (0x1AC, 0x1AC, 1, 1);
  (0x1AE, 0x1AE, 1, 218); (0x1AF, 0x1AF, 1, 1); (0x1B1, 0x1B2, 1, 217); (0x1B3, 0x1B5, 2, 1);
  (0x1B7, 0x1B7, 1, 219); (0x1B8, 0x1B8, 1, 1); (0x1BC, 0x1BC, 1, 1); (0x1C4, 0x1C4, 1, 2);
  (0x1C5, 0x1C5, 1, 1); (0x1C7, 0x1C7, 1, 2); (0x1C8, 0x1C8, 1, 1); (0x1CA, 0x1CA, 1, 2);
  (0x1CB, 0x1DB, 2, 1); (0x1DE, 0x1EE, 2, 1); (0x1F1, 0x1F1, 1, 2); (0x1F2, 0x1F4, 2, 1);
  (0x1F6, 0x1F6, 1, (-97)); (0x1F7, 0x1F7, 1, (-56)); (0x1F8, 0x21E, 2, 1); (0x220, 0x220, 1, (-130));
  (0x222, 0x232, 2, 1); (0x23A, 0x23A, 1, 10795); (0x23B, 0x23B, 1, 1); (0x23D, 0x23D, 1, (-163));
  (0x23E, 0x23E, 1, 10792); (0x241, 0x241, 1, 1); (0x243, 0x243, 1, (-195)); (0x244, 0x244, 1, 69);
  (0x245, 0x245, 1, 71); (0x246, 0x24E, 2, 1); (0x370, 0x372, 2, 1); (0x376, 0x376, 1, 1);
  (0x37F, 0x37F, 1, 116); (0x386, 0x386, 1, 38); (0x388, 0x38A, 1, 37); (0x38C, 0x38C, 1, 64);
  (0x38E, 0x38F, 1, 63); (0x391, 0x3A1, 1, 32); (0x3A3, 0x3AB, 1, 32); (0x3CF, 0x3CF, 1, 8);
  (0x3D8, 0x3EE, 2, 1); (0x3F4, 0x3F4, 1, (-60)); (0x3F7, 0x3F7, 1, 1); (0x3F9, 0x3F9, 1, (-7));
  (0x3FA, 0x3FA, 1, 1); (0x3FD, 0x3FF, 1, (-130)); (0x400, 0x40F, 1, 80); (0x410, 0x42F, 1, 32);
  (0x460, 0x480, 2, 1); (0x48A, 0x4BE, 2, 1); (0x4C0, 0x4C0, 1, 15); (0x4C1, 0x4CD, 2, 1);
  (0x4D0, 0x52E, 2, 1); (0x531, 0x556, 1, 48); (0x10A0, 0x10C5, 1, 7264); (0x10C7, 0x10C7, 1, 7264);
  (0x10CD, 0x10CD, 1, 7264); (0x13A0, 0x13EF, 1, 38864); (0x13F0, 0x13F5, 1, 8); (0x1C90, 0x1CBA, 1, (-3008));
  (0x1CBD, 0x1CBF, 1, (-3008)); (0x1E00, 0x1E94, 2, 1); (0x1E9E, 0x1E9E, 1, (-7615)); (0x1EA0, 0x1EFE, 2, 1);
  (0x1F08, 0x1F0F, 1, (-8)); (0x1F18, 0x1F1D, 1, (-8)); (0x1F28, 0x1F2F, 1, (-8)); (0x1F38, 0x1F3F, 1, (-8));
  (0x1F48, 0x1F4D, 1, (-8)); (0x1F59, 0x1F5F, 2, (-8)); (0x1F68, 0x1F6F, 1, (-8)); (0x1F88, 0x1F8F, 1, (-8));
  (0x1F98, 0x1F9F, 1, (-8)); (0x1FA8, 0x1FAF, 1, (-8)); (0x1FB8, 0x1FB9, 1, (-8)); (0x1FBA, 0x1FBB, 1, (-74));
  (0x1FBC, 0x1FBC, 1, (-9)); (0x1FC8, 0x1FCB, 1, (-86)); (0x1FCC, 0x1FCC, 1, (-9)); (0x1FD8, 0x1FD9, 1, (-8));
  (0x1FDA, 0x1FDB, 1, (-100)); (0x1FE8, 0x1FE9, 1, (-8)); (0x1FEA, 0x1FEB, 1, (-112)); (0x1FEC, 0x1FEC, 1, (-7));
  (0x1FF8, 0x1FF9, 1, (-128)); (0x1FFA, 0x1FFB, 1, (-126)); (0x1FFC, 0x1FFC, 1, (-9)); (0x2126, 0x2126, 1, (-7517));
  (0x212A, 0x212A, 1, (-8383)); (0x212B, 0x212B, 1, (-8262)); (0x2132, 0x2132, 1, 28); (0x2160, 0x216F, 1, 16);
  (0x2183, 0x2183, 1, 1); (0x24B6, 0x24CF, 1, 26); (0x2C00, 0x2C2F, 1, 48); (0x2C60, 0x2C60, 1, 1);
  (0x2C62, 0x2C62, 1, (-10743)); (0x2C63, 0x2C63, 1, (-3814)); (0x2C64, 0x2C64, 1, (-10727)); (0x2C67, 0x2C6B, 2, 1);
  (0x2C6D, 0x2C6D, 1, (-10780)); (0x2C6E, 0x2C6E, 1, (-10749)); (0x2C6F, 0x2C6F, 1, (-10783)); (0x2C70, 0x2C70, 1, (-10782));
  (0x2C72, 0x2C72, 1, 1); (0x2C75, 0x2C75, 1, 1); (0x2C7E, 0x2C7F, 1, (-10815)); (0x2C80, 0x2CE2, 2, 1);
  (0x2CEB, 0x2CED, 2, 1); (0x2CF2, 0x2CF2, 1, 1); (0xA640, 0xA66C, 2, 1); (0xA680, 0xA69A, 2, 1);
  (0xA722, 0xA72E, 2, 1); (0xA732, 0xA76E, 2, 1); (0xA779, 0xA77B, 2, 1); (0xA77D, 0xA77D, 1, (-35332));
  (0xA77E, 0xA786, 2, 1); (0xA78B, 0xA78B, 1, 1); (0xA78D, 0xA78D, 1, (-42280)); (0xA790, 0xA792, 2, 1);
  (0xA796, 0xA7A8, 2, 1); (0xA7AA, 0xA7AA, 1, (-42308)); (0xA7AB, 0xA7AB, 1, (-42319)); (0xA7AC, 0xA7AC, 1, (-42315));
  (0xA7AD, 0xA7AD, 1, (-42305)); (0xA7AE, 0xA7AE, 1, (-42308)); (0xA7B0, 0xA7B0, 1, (-42258)); (0xA7B1, 0xA7B1, 1, (-42282));
  (0xA7B2, 0xA7B2, 1, (-42261)); (0xA7B3, 0xA7B3, 1, 928); (0xA7B4, 0xA7C2, 2, 1); (0xA7C4, 0xA7C4, 1, (-48));
  (0xA7C5, 0xA7C5, 1, (-42307)); (0xA7C6, 0xA7C6, 1, (-35384)); (0xA7C7, 0xA7C9, 2, 1); (0xA7D0, 0xA7D0, 1, 1);
  (0xA7D6, 0xA7D8, 2, 1); (0xA7F5, 0xA7F5, 1, 1); (0xFF21, 0xFF3A, 1, 32); (0x10400, 0x10427, 1, 40);
  (0x104B0, 0x104D3, 1, 40); (0x10570, 0x1057A, 1, 39); (0x1057C, 0x1058A, 1, 39); (0x1058C, 0x10592, 1, 39);
  (0x10594, 0x10595, 1, 39); (0x10C80, 0x10CB2, 1, 64); (0x118A0, 0x118BF, 1, 32); (0x16E40, 0x16E5F, 1, 32);
  (0x1E900, 0x1E921, 1, 34)
].

Definition cased_table : list (Z * Z) := [
  (0x41, 0x5A); (0x61, 0x7A); (0xAA, 0xAA); (0xB5, 0xB5); (0xBA, 0xBA); (0xC0, 0xD6);
  (0xD8, 0xF6); (0xF8, 0x1BA); (0x1BC, 0x1BF); (0x1C4, 0x293); (0x295, 0x2B8); (0x2C0, 0x2C1);
  (0x2E0, 0x2E4); (0x345, 0x345); (0x370, 0x373); (0x376, 0x377); (0x37A, 0x37D); (0x37F, 0x37F);
  (0x386, 0x386); (0x388, 0x38A); (0x38C, 0x38C); (0x38E, 0x3A1); (0x3A3, 0x3F5); (0x3F7, 0x481);
  (0x48A, 0x52F); (0x531, 0x556); (0x560, 0x588); (0x10A0, 0x10C5); (0x10C7, 0x10C7); (0x10CD, 0x10CD);
  (0x10D0, 0x10FA); (0x10FD, 0x10FF); (0x13A0, 0x13F5); (0x13F8, 0x13FD); (0x1C80, 0x1C88); (0x1C90, 0x1CBA);
  (0x1CBD, 0x1CBF); (0x1D00, 0x1DBF); (0x1E00, 0x1F15); (0x1F18, 0x1F1D); (0x1F20, 0x1F45); (0x1F48, 0x1F4D);
  (0x1F50, 0x1F57); (0x1F59, 0x1F59); (0x1F5B, 0x1F5B); (0x1F5D, 0x1F5D); (0x1F5F, 0x1F7D); (0x1F80, 0x1FB4);
  (0x1FB6, 0x1FBC); (0x1FBE, 0x1FBE); (0x1FC2, 0x1FC4); (0x1FC6, 0x1FCC); (0x1FD0, 0x1FD3); (0x1FD6, 0x1FDB);
  (0x1FE0, 0x1FEC); (0x1FF2, 0x1FF4); (0x1FF6, 0x1FFC); (0x2071, 0x2071); (0x207F, 0x207F); (0x2090, 0x209C);
  (0x2102, 0x2102); (0x2107, 0x2107); (0x210A, 0x2113); (0x2115, 0x2115); (0x2119, 0x211D); (0x2124, 0x2124);
  (0x2126, 0x2126); (0x2128, 0x2128); (0x212A, 0x212D); (0x212F, 0x2134); (0x2139, 0x2139); (0x213C, 0x213F);
  (0x2145, 0x2149); (0x214E, 0x214E); (0x2160, 0x217F); (0x2183, 0x2184); (0x24B6, 0x24E9); (0x2C00, 0x2CE4);
  (0x2CEB, 0x2CEE); (0x2CF2, 0x2CF3); (0x2D00, 0x2D25); (0x2D27, 0x2D27); (0x2D2D, 0x2D2D); (0xA640, 0xA66D);
  (0xA680, 0xA69D); (0xA722, 0xA787); (0xA78B, 0xA78E); (0xA790, 0xA7CA); (0xA7D0, 0xA7D1); (0xA7D3, 0xA7D3);
  (0xA7D5, 0xA7D9); (0xA7F5, 0xA7F6); (0xA7F8, 0xA7FA); (0xAB30, 0xAB5A); (0xAB5C, 0xAB68); (0xAB70, 0xABBF);
  (0xFB00, 0xFB06); (0xFB13, 0xFB17); (0xFF21, 0xFF3A); (0xFF41, 0xFF5A); (0x10400, 0x1044F); (0x104B0, 0x104D3);
  (0x104D8, 0x104FB); (0x10570, 0x1057A); (0x1057C, 0x1058A); (0x1058C, 0x10592); (0x10594, 0x10595); (0x10597, 0x105A1);
  (0x105A3, 0x105B1); (0x105B3, 0x105B9); (0x105BB, 0x105BC); (0x10780, 0x10780); (0x10783, 0x10785); (0x10787, 0x107B0);
  (0x107B2, 0x107BA); (0x10C80, 0x10CB2); (0x10CC0, 0x10CF2); (0x118A0, 0x118DF); (0x16E40, 0x16E7F); (0x1D400, 0x1D454);
  (0x1D456, 0x1D49C); (0x1D49E, 0x1D49F); (0x1D4A2, 0x1D4A2); (0x1D4A5, 0x1D4A6); (0x1D4A9, 0x1D4AC); (0x1D4AE, 0x1D4B9);
  (0x1D4BB, 0x1D4BB); (0x1D4BD, 0x1D4C3); (0x1D4C5, 0x1D505); (0x1D507, 0x1D50A); (0x1D50D, 0x1D514); (0x1D516, 0x1D51C);
  (0x1D51E, 0x1D539); (0x1D53B, 0x1D53E); (0x1D540, 0x1D544); (0x1D546, 0x1D546); (0x1D54A, 0x1D550); (0x1D552, 0x1D6A5);
  (0x1D6A8, 0x1D6C0); (0x1D6C2, 0x1D6DA); (0x1D6DC, 0x1D6FA); (0x1D6FC, 0x1D714); (0x1D716, 0x1D734); (0x1D736, 0x1D74E);
  (0x1D750, 0x1D76E); (0x1D770, 0x1D788); (0x1D78A, 0x1D7A8); (0x1D7AA, 0x1D7C2); (0x1D7C4, 0x1D7CB); (0x1DF00, 0x1DF09);
  (0x1DF0B, 0x1DF1E); (0x1E900, 0x1E943); (0x1F130, 0x1F149); (0x1F150, 0x1F169); (0x1F170, 0x1F189)
].

Definition case_ignorable_table : list (Z * Z) := [
  (0x27, 0x27); (0x2E, 0x2E); (0x3A, 0x3A); (0x5E, 0x5E); (0x60, 0x60); (0xA8, 0xA8);
  (0xAD, 0xAD); (0xAF, 0xAF); (0xB4, 0xB4); (0xB7, 0xB8); (0x2B0, 0x36F); (0x374, 0x375);
  (0x37A, 0x37A); (0x384, 0x385); (0x387, 0x387); (0x483, 0x489); (0x559, 0x559); (0x55F, 0x55F);
  (0x591, 0x5BD); (0x5BF, 0x5BF); (0x5C1, 0x5C2); (0x5C4, 0x5C5); (0x5C7, 0x5C7); (0x5F4, 0x5F4);
  (0x600, 0x605); (0x610, 0x61A); (0x61C, 0x61C); (0x640, 0x640); (0x64B, 0x65F); (0x670, 0x670);
  (0x6D6, 0x6DD); (0x6DF, 0x6E8); (0x6EA, 0x6ED); (0x70F, 0x70F); (0x711, 0x711); (0x730, 0x74A);
  (0x7A6, 0x7B0); (0x7EB, 0x7F5); (0x7FA, 0x7FA); (0x7FD, 0x7FD); (0x816, 0x82D); (0x859, 0x85B);
  (0x888, 0x888); (0x890, 0x891); (0x898, 0x89F); (0x8C9, 0x902); (0x93A, 0x93A); (0x93C, 0x93C);
  (0x941, 0x948); (0x94D, 0x94D); (0x951, 0x957); (0x962, 0x963); (0x971, 0x971); (0x981, 0x981);
  (0x9BC, 0x9BC); (0x9C1, 0x9C4); (0x9CD, 0x9CD); (0x9E2, 0x9E3); (0x9FE, 0x9FE); (0xA01, 0xA02);
  (0xA3C, 0xA3C); (0xA41, 0xA42); (0xA47, 0xA48); (0xA4B, 0xA4D); (0xA51, 0xA51); (0xA70, 0xA71);
  (0xA75, 0xA75); (0xA81, 0xA82); (0xABC, 0xABC); (0xAC1, 0xAC5); (0xAC7, 0xAC8); (0xACD, 0xACD);
  (0xAE2, 0xAE3); (0xAFA, 0xAFF); (0xB01, 0xB01); (0xB3C, 0xB3C); (0xB3F, 0xB3F); (0xB41, 0xB44);
  (0xB4D, 0xB4D); (0xB55, 0xB56); (0xB62, 0xB63); (0xB82, 0xB82); (0xBC0, 0xBC0); (0xBCD, 0xBCD);
  (0xC00, 0xC00); (0xC04, 0xC04); (0xC3C, 0xC3C); (0xC3E, 0xC40); (0xC46, 0xC48); (0xC4A, 0xC4D);
  (0xC55, 0xC56); (0xC62, 0xC63); (0xC81, 0xC81); (0xCBC, 0xCBC); (0xCBF, 0xCBF); (0xCC6, 0xCC6);
  (0xCCC, 0xCCD); (0xCE2, 0xCE3); (0xD00, 0xD01); (0xD3B, 0xD3C); (0xD41, 0xD44); (0xD4D, 0xD4D);
  (0xD62, 0xD63); (0xD81, 0xD81); (0xDCA, 0xDCA); (0xDD2, 0xDD4); (0xDD6, 0xDD6); (0xE31, 0xE31);
  (0xE34, 0xE3A); (0xE46, 0xE4E); (0xEB1, 0xEB1); (0xEB4, 0xEBC); (0xEC6, 0xEC6); (0xEC8, 0xECD);
  (0xF18, 0xF19); (0xF35, 0xF35); (0xF37, 0xF37); (0xF39, 0xF39); (0xF71, 0xF7E); (0xF80, 0xF84);
  (0xF86, 0xF87); (0xF8D, 0xF97); (0xF99, 0xFBC); (0xFC6, 0xFC6); (0x102D, 0x1030); (0x1032, 0x1037);
  (0x1039, 0x103A); (0x103D, 0x103E); (0x1058, 0x1059); (0x105E, 0x1060); (0x1071, 0x1074); (0x1082, 0x1082);
  (0x1085, 0x1086); (0x108D, 0x108D); (0x109D, 0x109D); (0x10FC, 0x10FC); (0x135D, 0x135F); (0x1712, 0x1714);
  (0x1732, 0x1733); (0x1752, 0x1753); (0x1772, 0x1773); (0x17B4, 0x17B5); (0x17B7, 0x17BD); (0x17C6, 0x17C6);
  (0x17C9, 0x17D3); (0x17D7, 0x17D7); (0x17DD, 0x17DD); (0x180B, 0x180F); (0x1843, 0x1843); (0x1885, 0x1886);
  (0x18A9, 0x18A9); (0x1920, 0x1922); (0x1927, 0x1928); (0x1932, 0x1932); (0x1939, 0x193B); (0x1A17, 0x1A18);
  (0x1A1B, 0x1A1B); (0x1A56, 0x1A56); (0x1A58, 0x1A5E); (0x1A60, 0x1A60); (0x1A62, 0x1A62); (0x1A65, 0x1A6C);
  (0x1A73, 0x1A7C); (0x1A7F, 0x1A7F); (0x1AA7, 0x1AA7); (0x1AB0, 0x1ACE); (0x1B00, 0x1B03); (0x1B34, 0x1B34);
  (0x1B36, 0x1B3A); (0x1B3C, 0x1B3C); (0x1B42, 0x1B42); (0x1B6B, 0x1B73); (0x1B80, 0x1B81); (0x1BA2, 0x1BA5);
  (0x1BA8, 0x1BA9); (0x1BAB, 0x1BAD); (0x1BE6, 0x1BE6); (0x1BE8, 0x1BE9); (0x1BED, 0x1BED); (0x1BEF, 0x1BF1);
  (0x1C2C, 0x1C33); (0x1C36, 0x1C37); (0x1C78, 0x1C7D); (0x1CD0, 0x1CD2); (0x1CD4, 0x1CE0); (0x1CE2, 0x1CE8);
  (0x1CED, 0x1CED); (0x1CF4, 0x1CF4); (0x1CF8, 0x1CF9); (0x1D2C, 0x1D6A); (0x1D78, 0x1D78); (0x1D9B, 0x1DFF);
  (0x1FBD, 0x1FBD); (0x1FBF, 0x1FC1); (0x1FCD, 0x1FCF); (0x1FDD, 0x1FDF); (0x1FED, 0x1FEF); (0x1FFD, 0x1FFE);
  (0x200B, 0x200F); (0x2018, 0x2019); (0x2024, 0x2024); (0x2027, 0x2027); (0x202A, 0x202E); (0x2060, 0x2064);
  (0x2066, 0x206F); (0x2071, 0x2071); (0x207F, 0x207F); (0x2090, 0x209C); (0x20D0, 0x20F0); (0x2C7C, 0x2C7D);
  (0x2CEF, 0x2CF1); (0x2D6F, 0x2D6F); (0x2D7F, 0x2D7F); (0x2DE0, 0x2DFF); (0x2E2F, 0x2E2F); (0x3005, 0x3005);
  (0x302A, 0x302D); (0x3031, 0x3035); (0x303B, 0x303B); (0x3099, 0x309E); (0x30FC, 0x30FE); (0xA015, 0xA015);
  (0xA4F8, 0xA4FD); (0xA60C, 0xA60C); (0xA66F, 0xA672); (0xA674, 0xA67D); (0xA67F, 0xA67F); (0xA69C, 0xA69F);
  (0xA6F0, 0xA6F1); (0xA700, 0xA721); (0xA770, 0xA770); (0xA788, 0xA78A); (0xA7F2, 0xA7F4); (0xA7F8, 0xA7F9);
  (0xA802, 0xA802); (0xA806, 0xA806); (0xA80B, 0xA80B); (0xA825, 0xA826); (0xA82C, 0xA82C); (0xA8C4, 0xA8C5);
  (0xA8E0, 0xA8F1); (0xA8FF, 0xA8FF); (0xA926, 0xA92D); (0xA947, 0xA951); (0xA980, 0xA982); (0xA9B3, 0xA9B3);
  (0xA9B6, 0xA9B9); (0xA9BC, 0xA9BD); (0xA9CF, 0xA9CF); (0xA9E5, 0xA9E6); (0xAA29, 0xAA2E); (0xAA31, 0xAA32);
  (0xAA35, 0xAA36); (0xAA43, 0xAA43); (0xAA4C, 0xAA4C); (0xAA70, 0xAA70); (0xAA7C, 0xAA7C); (0xAAB0, 0xAAB0);
  (0xAAB2, 0xAAB4); (0xAAB7, 0xAAB8); (0xAABE, 0xAABF); (0xAAC1, 0xAAC1); (0xAADD, 0xAADD); (0xAAEC, 0xAAED);
  (0xAAF3, 0xAAF4); (0xAAF6, 0xAAF6); (0xAB5B, 0xAB5F); (0xAB69, 0xAB6B); (0xABE5, 0xABE5); (0xABE8, 0xABE8);
  (0xABED, 0xABED); (0xFB1E, 0xFB1E); (0xFBB2, 0xFBC2); (0xFE00, 0xFE0F); (0xFE13, 0xFE13); (0xFE20, 0xFE2F);
  (0xFE52, 0xFE52); (0xFE55, 0xFE55); (0xFEFF, 0xFEFF); (0xFF07, 0xFF07); (0xFF0E, 0xFF0E); (0xFF1A, 0xFF1A);
  (0xFF3E, 0xFF3E); (0xFF40, 0xFF40); (0xFF70, 0xFF70); (0xFF9E, 0xFF9F); (0xFFE3, 0xFFE3); (0xFFF9, 0xFFFB);
  (0x101FD, 0x101FD); (0x102E0, 0x102E0); (0x10376, 0x1037A); (0x10780, 0x10785); (0x10787, 0x107B0); (0x107B2, 0x107BA);
  (0x10A01, 0x10A03); (0x10A05, 0x10A06); (0x10A0C, 0x10A0F); (0x10A38, 0x10A3A); (0x10A3F, 0x10A3F); (0x10AE5, 0x10AE6);
  (0x10D24, 0x10D27); (0x10EAB, 0x10EAC); (0x10F46, 0x10F50); (0x10F82, 0x10F85); (0x11001, 0x11001); (0x11038, 0x11046);
  (0x11070, 0x11070); (0x11073, 0x11074); (0x1107F, 0x11081); (0x110B3, 0x110B6); (0x110B9, 0x110BA); (0x110BD, 0x110BD);
  (0x110C2, 0x110C2); (0x110CD, 0x110CD); (0x11100, 0x11102); (0x11127, 0x1112B); (0x1112D, 0x11134); (0x11173, 0x11173);
  (0x11180, 0x11181); (0x111B6, 0x111BE); (0x111C9, 0x111CC); (0x111CF, 0x111CF); (0x1122F, 0x11231); (0x11234, 0x11234);
  (0x11236, 0x11237); (0x1123E, 0x1123E); (0x112DF, 0x112DF); (0x112E3, 0x112EA); (0x11300, 0x11301); (0x1133B, 0x1133C);
  (0x11340, 0x11340); (0x11366, 0x1136C); (0x11370, 0x11374); (0x11438, 0x1143F); (0x11442, 0x11444); (0x11446, 0x11446);
  (0x1145E, 0x1145E); (0x114B3, 0x114B8); (0x114BA, 0x114BA); (0x114BF, 0x114C0); (0x114C2, 0x114C3); (0x115B2, 0x115B5);
  (0x115BC, 0x115BD); (0x115BF, 0x115C0); (0x115DC, 0x115DD); (0x11633, 0x1163A); (0x1163D, 0x1163D); (0x1163F, 0x11640);
  (0x116AB, 0x116AB); (0x116AD, 0x116AD); (0x116B0, 0x116B5); (0x116B7, 0x116B7); (0x1171D, 0x1171F); (0x11722, 0x11725);
  (0x11727, 0x1172B); (0x1182F, 0x11837); (0x11839, 0x1183A); (0x1193B, 0x1193C); (0x1193E, 0x1193E); (0x11943, 0x11943);
  (0x119D4, 0x119D7); (0x119DA, 0x119DB); (0x119E0, 0x119E0); (0x11A01, 0x11A0A); (0x11A33, 0x11A38); (0x11A3B, 0x11A3E);
  (0x11A47, 0x11A47); (0x11A51, 0x11A56); (0x11A59, 0x11A5B); (0x11A8A, 0x11A96); (0x11A98, 0x11A99); (0x11C30, 0x11C36);
  (0x11C38, 0x11C3D); (0x11C3F, 0x11C3F); (0x11C92, 0x11CA7); (0x11CAA, 0x11CB0); (0x11CB2, 0x11CB3); (0x11CB5, 0x11CB6);
  (0x11D31, 0x11D36); (0x11D3A, 0x11D3A); (0x11D3C, 0x11D3D); (0x11D3F, 0x11D45); (0x11D47, 0x11D47); (0x11D90, 0x11D91);
  (0x11D95, 0x11D95); (0x11D97, 0x11D97); (0x11EF3, 0x11EF4); (0x13430, 0x13438); (0x16AF0, 0x16AF4); (0x16B30, 0x16B36);
  (0x16B40, 0x16B43); (0x16F4F, 0x16F4F); (0x16F8F, 0x16F9F); (0x16FE0, 0x16FE1); (0x16FE3, 0x16FE4); (0x1AFF0, 0x1AFF3);
  (0x1AFF5, 0x1AFFB); (0x1AFFD, 0x1AFFE); (0x1BC9D, 0x1BC9E); (0x1BCA0, 0x1BCA3); (0x1CF00, 0x1CF2D); (0x1CF30, 0x1CF46);
  (0x1D167, 0x1D169); (0x1D173, 0x1D182); (0x1D185, 0x1D18B); (0x1D1AA, 0x1D1AD); (0x1D242, 0x1D244); (0x1DA00, 0x1DA36);
  (0x1DA3B, 0x1DA6C); (0x1DA75, 0x1DA75); (0x1DA84, 0x1DA84); (0x1DA9B, 0x1DA9F); (0x1DAA1, 0x1DAAF); (0x1E000, 0x1E006);
  (0x1E008, 0x1E018); (0x1E01B, 0x1E021); (0x1E023, 0x1E024); (0x1E026, 0x1E02A); (0x1E130, 0x1E13D); (0x1E2AE, 0x1E2AE);
  (0x1E2EC, 0x1E2EF); (0x1E8D0, 0x1E8D6); (0x1E944, 0x1E94B); (0x1F3FB, 0x1F3FF); (0xE0001, 0xE0001); (0xE0020, 0xE007F);
  (0xE0100, 0xE01EF)
].

Definition in_ranges (t : list (Z * Z)) (c : Z) : bool :=
  existsb (fun r => (fst r <=? c) && (c <=? snd r)) t.

Definition is_cased (c : Z) : bool := in_ranges cased_table c.

Definition is_case_ignorable (c : Z) : bool := in_ranges case_ignorable_table c.

Definition lower_entry (c : Z) (e : Z * Z * Z * Z) : bool :=
  let '(lo, hi, stride, _) := e in
  (lo <=? c) && (c <=? hi) && ((c - lo) mod stride =? 0).

(** [_PyUnicode_ToLowerFull]: U+0130 is the only code point whose
    lowercase form has more than one code point. *)
Definition to_lower_full (c : Z) : str :=
  if c =? 0x130 then [0x69; 0x307]
  else match find (lower_entry c) lower_table with
       | Some (_, _, _, delta) => [c + delta]
       | None => [c]
       end.

(** The nearest code point of [s] that is not case-ignorable. *)
Fixpoint skip_case_ignorable (s : str) : option Z :=
  match s with
  | [] => None
  | c :: rest => if is_case_ignorable c then skip_case_ignorable rest else Some c
  end.

(** [handle_capital_sigma]: sigma is final when a cased letter precedes it
    and none follows it, case-ignorable code points being skipped on both
    sides.  [before] lists the preceding code points, nearest first. *)
Definition handle_capital_sigma (before after : str) : Z :=
  let preceded :=
    match skip_case_ignorable before with
    | Some c => is_cased c
    | None => false
    end in
  let followed :=
    match skip_case_ignorable after with
    | Some c => is_cased c
    | None => false
    end in
  if preceded && negb followed then 0x3C2 else 0x3C3.

Definition lower_ucs4 (before : str) (c : Z) (after : str) : str :=
  if c =? 0x3A3 then [handle_capital_sigma before after] else to_lower_full c.

Fixpoint do_lower (before : str) (s : str) : str :=
  match s with
  | [] => []
  | c :: rest => lower_ucs4 before c rest ++ do_lower (c :: before) rest
  end.

Definition lower (s : str) : str := do_lower [] s.

(** ** [str.count]

    [s.count(sub)] scans [s] from the left; each time [sub] is found the
    scan resumes behind the occurrence, so counted occurrences never
    overlap.  [skip] is the number of code points still covered by the
    occurrence counted last.  The empty string is found between any two
    code points and at both ends. *)

Fixpoint startswith (s prefix : str) {struct prefix} : bool :=
  match prefix with
  | [] => true
  | p :: prefix' =>
      match s with
      | [] => false
      | c :: s' => (c =? p) && startswith s' prefix'
      end
  end.

Fixpoint count_scan (sub : str) (skip : nat) (s : str) : nat :=
  match s with
  | [] => 0
  | _ :: rest =>
      match skip with
      | S k => count_scan sub k rest
      | O =>
          if startswith s sub
          then S (count_scan sub (length sub - 1) rest)
          else count_scan sub 0 rest
      end
  end.

Definition count (s sub : str) : nat :=
  match sub with
  | [] => S (length s)
  | _ :: _ => count_scan sub 0 s
  end.

(** Python's [sum] over a sequence of counts. *)
Definition sum (xs : list nat) : nat := fold_left Nat.add xs 0%nat.

(** ** The classifier *)

Module SentimentChecker.

Definition POSITIVE : list str := Eval vm_compute in [u "хорош"; u "люблю"].
Definition NEGATIVE : list str := Eval vm_compute in [u "плохо"; u "ненавиж"].

Definition check (text : str) : str :=
  let lowered := lower text in
  let pos_count := sum (map (fun p => count lowered p) POSITIVE) in
  let neg_count := sum (map (fun n => count lowered n) NEGATIVE) in
  if (neg_count <? pos_count)%nat then u "positive"
  else if (pos_count <? neg_count)%nat then u "negative"
  else u "neutral".

End SentimentChecker.

(** ** [datetime.utcnow().isoformat()]

    The clock is outside the program: the value read by [utcnow()] is a
    parameter of the operation that reads it. *)

Record datetime := {
  year : Z; month : Z; day : Z;
  hour : Z; minute : Z; second : Z; microsecond : Z
}.

(** [n] in decimal, zero padded to [width] digits. *)
Definition digits (width : nat) (n : Z) : str :=
  map (fun i => 48 + (n / 10 ^ Z.of_nat i) mod 10) (rev (seq 0 width)).

(** [YYYY-MM-DDTHH:MM:SS], followed by [.ffffff] unless the microseconds
    are zero. *)
Definition isoformat (d : datetime) : str :=
  digits 4 (year d) ++ u "-" ++ digits 2 (month d) ++ u "-" ++ digits 2 (day d)
  ++ u "T" ++ digits 2 (hour d) ++ u ":" ++ digits 2 (minute d)
  ++ u ":" ++ digits 2 (second d)
  ++ (if microsecond d =? 0 then [] else u "." ++ digits 6 (microsecond d)).

(** ** The [Review] dataclass *)

Module Review.

Record t := {
  text : str;
  sentiment : str;
  created_at : str;
  id : option Z
}.

(** The assignment [review.id = value]. *)
Definition set_id (review : t) (value : option Z) : t :=
  {| text := text review; sentiment := sentiment review;
     created_at := created_at review; id := value |}.

End Review.

(** ** The database [reviews.db]

    The table [reviews] is a rowid table with an [AUTOINCREMENT] key.  Its
    rows are kept in rowid order, the order in which a scan without
    [ORDER BY] visits them.  [sequence] is the entry of [sqlite_sequence]
    for the table: the largest rowid the table has ever held. *)

Record Row := {
  row_id : Z;
  row_text : str;
  row_sentiment : str;
  row_created_at : str
}.

Record Table := {
  rows : list Row;
  sequence : Z
}.

Definition empty_table : Table := {| rows := []; sequence := 0 |}.

(** [None]: the table has not been created. *)
Definition Database := option Table.

Definition MAX_ROWID : Z := 9223372036854775807.

Definition max_rowid (rs : list Row) : Z :=
  fold_right (fun r m => Z.max (row_id r) m) 0 rs.

(** The largest rowid in the table or recorded for it. *)
Definition largest_rowid (t : Table) : Z := Z.max (max_rowid (rows t)) (sequence t).

Definition stored (d : Database) : list Row :=
  match d with
  | Some t => rows t
  | None => []
  end.

(** ** Exceptions *)

Definition SQLITE_ERROR : Z := 1.
Definition SQLITE_FULL : Z := 13.

Inductive exn :=
| sqlite3_Error (rc : Z)   (* the subclass of [sqlite3.Error] raised for result code [rc] *)
| UnicodeEncodeError.

Inductive result (A : Type) :=
| Ok (a : A)
| Raise (e : exn).

Arguments Ok {A} a.
Arguments Raise {A} e.

(** ** The connection

    [disk] is the committed content of the database file.  [txn] is the
    table as seen inside the transaction the connection has open, if any:
    the [sqlite3] module opens one before an [INSERT], ahead of binding
    the parameters, and closes it on [commit].

    [medium] lists what the next accesses to the file will meet: [None]
    when the access works, [Some f] when it fails with result code [rc f].
    A failed access may or may not roll the open transaction back; SQLite
    decides by the kind of failure, which [txn_survives] records.  Past the
    end of the list every access works. *)

Record fault := {
  rc : Z;
  txn_survives : bool
}.

Record Connection := {
  disk : Database;
  txn : option Table;
  medium : list (option fault)
}.

Definition connect (d : Database) (m : list (option fault)) : Connection :=
  {| disk := d; txn := None; medium := m |}.

(** What the connection reads: its own transaction when it has one. *)
Definition visible (c : Connection) : Database :=
  match txn c with
  | Some t => Some t
  | None => disk c
  end.

(** ** Computations on a connection *)

Definition M (A : Type) : Type := Connection -> result A * Connection.

Definition ret {A} (a : A) : M A := fun c => (Ok a, c).

Definition raise {A} (e : exn) : M A := fun c => (Raise e, c).

Definition bind {A B} (m : M A) (k : A -> M B) : M B :=
  fun c =>
    match m c with
    | (Ok a, c') => k a c'
    | (Raise e, c') => (Raise e, c')
    end.

Notation "x <- m ;; k" := (bind m (fun x => k))
  (at level 61, m at next level, right associativity).
Notation "m ;; k" := (bind m (fun _ => k))
  (at level 61, right associativity).

(** One access to the database file. *)
Definition access : M unit :=
  fun c =>
    match medium c with
    | Some f :: later =>
        (Raise (sqlite3_Error (rc f)),
         {| disk := disk c;
            txn := if txn_survives f then txn c else None;
            medium := later |})
    | _ => (Ok tt, {| disk := disk c; txn := txn c; medium := tl (medium c) |})
    end.

(** Preparing a statement on [reviews] fails when the table is missing. *)
Definition prepare : M Table :=
  fun c =>
    match visible c with
    | Some t => (Ok t, c)
    | None => (Raise (sqlite3_Error SQLITE_ERROR), c)
    end.

(** A [str] parameter is bound as UTF-8, which has no encoding for a
    surrogate code point. *)
Definition is_surrogate (c : Z) : bool := (0xD800 <=? c) && (c <=? 0xDFFF).

Definition encodable (s : str) : bool := forallb (fun c => negb (is_surrogate c)) s.

Definition bind_text (s : str) : M unit :=
  fun c => if encodable s then (Ok tt, c) else (Raise UnicodeEncodeError, c).

(** [BEGIN]: the connection opens a transaction on the table [t] it reads,
    unless one is open, which then goes on. *)
Definition begin (t : Table) : M unit :=
  fun c => (Ok tt, {| disk := disk c; txn := Some t; medium := medium c |}).

(** The open transaction rolled back. *)
Definition rollback : M unit :=
  fun c => (Ok tt, {| disk := disk c; txn := None; medium := medium c |}).

Definition write (t : Table) : M unit :=
  fun c => (Ok tt, {| disk := disk c; txn := Some t; medium := medium c |}).

(** The table after one more row: [AUTOINCREMENT] gives it the rowid that
    follows the largest one the table has ever held. *)
Definition append_row (t : Table) (text sentiment created_at : str) : Table :=
  let rowid := largest_rowid t + 1 in
  {| rows := rows t ++ [{| row_id := rowid; row_text := text;
                           row_sentiment := sentiment;
                           row_created_at := created_at |}];
     sequence := rowid |}.

(** [cursor.execute("INSERT INTO reviews (text, sentiment, created_at)
    VALUES (?, ?, ?)", ...)]; the value is [cursor.lastrowid].  The
    statement is prepared, the transaction opened, the parameters bound and
    the row written, in this order.  Once the largest rowid has been used,
    SQLite refuses the insert and rolls the transaction back. *)
Definition execute_insert (text sentiment created_at : str) : M Z :=
  access ;;
  t <- prepare ;;
  begin t ;;
  bind_text text ;;
  bind_text sentiment ;;
  bind_text created_at ;;
  if largest_rowid t >=? MAX_ROWID
  then (rollback ;; raise (sqlite3_Error SQLITE_FULL))
  else
    write (append_row t text sentiment created_at) ;;
    ret (largest_rowid t + 1).

(** [conn.commit()] *)
Definition commit : M unit :=
  fun c =>
    match txn c with
    | None => (Ok tt, c)
    | Some t =>
        (access ;;
         fun c' => (Ok tt, {| disk := Some t; txn := None; medium := medium c' |})) c
    end.

(** [cursor.execute("SELECT * FROM reviews")] and
    [cursor.execute("SELECT * FROM reviews WHERE sentiment = ?", ...)],
    each followed by [cursor.fetchall()]. *)
Definition execute_select (where_sentiment : option str) : M (list Row) :=
  access ;;
  t <- prepare ;;
  match where_sentiment with
  | None => ret (rows t)
  | Some s =>
      bind_text s ;;
      ret (filter (fun r => str_eqb (row_sentiment r) s) (rows t))
  end.

(** A [Review] built from a row: each column becomes the field of the
    same name. *)
Definition of_row (r : Row) : Review.t :=
  {| Review.text := row_text r;
     Review.sentiment := row_sentiment r;
     Review.created_at := row_created_at r;
     Review.id := Some (row_id r) |}.

(** [init_db]: [CREATE TABLE IF NOT EXISTS reviews] on a connection of its
    own. *)
Definition init_db : M unit :=
  access ;;
  fun c =>
    match disk c with
    | Some _ => (Ok tt, c)
    | None => (Ok tt, {| disk := Some empty_table; txn := txn c; medium := medium c |})
    end.

(** [close_connection]: closing the connection drops what it has not
    committed. *)
Definition close_connection (c : Connection) : Connection :=
  {| disk := disk c; txn := None; medium := medium c |}.

Module ReviewRepository.

Definition insert (review : Review.t) : M Review.t :=
  lastrowid <- execute_insert (Review.text review) (Review.sentiment review)
                              (Review.created_at review) ;;
  commit ;;
  ret (Review.set_id review (Some lastrowid)).

Definition fetch_all : M (list Review.t) :=
  rows <- execute_select None ;;
  ret (map of_row rows).

Definition fetch_by_sentiment (sentiment : str) : M (list Review.t) :=
  rows <- execute_select (Some sentiment) ;;
  ret (map of_row rows).

End ReviewRepository.

Module ReviewService.

Definition add_review (now : datetime) (text : str) : M Review.t :=
  let sentiment := SentimentChecker.check text in
  let review := {| Review.text := text;
                   Review.created_at := isoformat now;
                   Review.sentiment := sentiment;
                   Review.id := None |} in
  ReviewRepository.insert review.

Definition get_reviews_by_sentiment (sentiment : str) : M (list Review.t) :=
  match sentiment with
  | [] => ReviewRepository.fetch_all
  | _ :: _ => ReviewRepository.fetch_by_sentiment sentiment
  end.

End ReviewService.

(** ** Sequences of calls

    A caller of the service issues [add_review] and
    [get_reviews_by_sentiment] calls; between requests the connection is
    closed and the next request works on a new one. *)

Inductive call :=
| Add (now : datetime) (text : str)
| Get (sentiment : str)
| Teardown.

Definition serve (k : call) (c : Connection) : Connection :=
  match k with
  | Add now text => snd (ReviewService.add_review now text c)
  | Get sentiment => snd (ReviewService.get_reviews_by_sentiment sentiment c)
  | Teardown => close_connection c
  end.

Definition run (ks : list call) (c : Connection) : Connection :=
  fold_left (fun c k => serve k c) ks c.


(** The next [n] accesses to the file work. *)
Definition reachable (n : nat) (c : Connection) : Prop :=
  Forall (fun o => o = None) (firstn n (medium c)).

(** The connection after an access that worked. *)
Definition advance (c : Connection) : Connection :=
  {| disk := disk c; txn := txn c; medium := tl (medium c) |}.

(** The row that holds a stored review. *)
Definition to_row (r : Review.t) : Row :=
  {| row_id := match Review.id r with Some i => i | None => 0 end;
     row_text := Review.text r;
     row_sentiment := Review.sentiment r;
     row_created_at := Review.created_at r |}.


(** A row whose sentiment is what the classifier says of its text. *)
Definition classified (r : Row) : Prop :=
  row_sentiment r = SentimentChecker.check (row_text r).

Definition largest (d : Database) : Z :=
  match d with
  | Some t => largest_rowid t
  | None => 0
  end.

(** [t] holds the rows of [d] followed by classified rows. *)
Definition extends (d : Database) (t : Table) : Prop :=
  exists pending,
    rows t = stored d ++ pending /\
    Forall classified pending /\
    largest d <= largest_rowid t.

(** What an open transaction holds extends what is committed. *)
Definition pending_ok (c : Connection) : Prop :=
  match txn c with
  | None => True
  | Some t => extends (disk c) t
  end.

(** A reading of the clock, for the examples. *)
Definition noon : datetime :=
  {| year := 2024; month := 3; day := 7;
     hour := 12; minute := 0; second := 0; microsecond := 0 |}.


(** A connection to a table that holds three reviews, a positive, a
    negative and a positive one, as three calls of [add_review] leave
    them; for the examples. *)
Definition stocked : Connection :=
  run [Add noon (u "хорошо"); Add noon (u "плохо"); Add noon (u "люблю")]
      (connect (Some empty_table) []).


(** ** Non-overlapping occurrences, as the specification words them

    [sub] occurs in [s] at position [i] when the code points of [s] from
    [i] on start with [sub].  A packing is a list of occurrences, left to
    right, none of which starts before the end of the one before it.  The
    number of non-overlapping occurrences is the size of a largest
    packing. *)

Definition occurs_at (sub s : str) (i : nat) : Prop :=
  firstn (length sub) (skipn i s) = sub.

Fixpoint packing (sub s : str) (from : nat) (ps : list nat) : Prop :=
  match ps with
  | [] => True
  | p :: ps' =>
      (from <= p)%nat /\ occurs_at sub s p /\ packing sub s (p + length sub) ps'
  end.

Definition occurrences (s sub : str) (n : nat) : Prop :=
  (exists ps, packing sub s 0 ps /\ length ps = n) /\
  (forall ps, packing sub s 0 ps -> (length ps <= n)%nat).

(** The total over a list of markers. *)
Definition marker_total (markers : list str) (s : str) (total : nat) : Prop :=
  exists counts,
    Forall2 (occurrences s) markers counts /\ total = list_sum counts.

(** [sub in s]: [sub] occurs somewhere in [s]. *)
Definition contains (s sub : str) : bool :=
  existsb (fun i => startswith (skipn i s) sub) (seq 0 (S (length s))).

(** The two totals [check] compares. *)
Definition pos_count (text : str) : nat :=
  sum (map (fun p => count (lower text) p) SentimentChecker.POSITIVE).

Definition neg_count (text : str) : nat :=
  sum (map (fun n => count (lower text) n) SentimentChecker.NEGATIVE).

(** A code point that keeps the words on its two sides apart: [str.lower]
    leaves it as it is and it is part of no marker.  The space, the
    digits, the comma and the full stop are such code points. *)
Definition separator (sep : Z) : bool :=
  negb (sep =? 0x3A3)
  && str_eqb (to_lower_full sep) [sep]
  && forallb (fun m => negb (existsb (Z.eqb sep) m))
             (SentimentChecker.POSITIVE ++ SentimentChecker.NEGATIVE).

(** A code point that is part of some marker. *)
Definition in_marker (c : Z) : bool :=
  existsb (fun m => existsb (Z.eqb c) m)
          (SentimentChecker.POSITIVE ++ SentimentChecker.NEGATIVE).

(** Two code points that no marker tells apart: they are the same, or
    neither is part of a marker. *)
Definition alike (x y : Z) : Prop :=
  x = y \/ (in_marker x = false /\ in_marker y = false).

(** What [insert] does, case by case: the result and the connection it
    leaves. *)

Inductive insert_outcome (review : Review.t) (c : Connection) :
  result Review.t * Connection -> Prop :=
| insert_unreachable f later :
    medium c = Some f :: later ->
    insert_outcome review c
      (Raise (sqlite3_Error (rc f)),
       {| disk := disk c;
          txn := if txn_survives f then txn c else None;
          medium := later |})
| insert_no_table :
    hd None (medium c) = None ->
    visible c = None ->
    insert_outcome review c (Raise (sqlite3_Error SQLITE_ERROR), advance c)
| insert_not_encodable t :
    hd None (medium c) = None ->
    visible c = Some t ->
    encodable (Review.text review) && encodable (Review.sentiment review)
      && encodable (Review.created_at review) = false ->
    insert_outcome review c
      (Raise UnicodeEncodeError,
       {| disk := disk c; txn := Some t; medium := tl (medium c) |})
| insert_full t :
    hd None (medium c) = None ->
    visible c = Some t ->
    encodable (Review.text review) && encodable (Review.sentiment review)
      && encodable (Review.created_at review) = true ->
    MAX_ROWID <= largest_rowid t ->
    insert_outcome review c
      (Raise (sqlite3_Error SQLITE_FULL),
       {| disk := disk c; txn := None; medium := tl (medium c) |})
| insert_not_committed t f later :
    hd None (medium c) = None ->
    visible c = Some t ->
    encodable (Review.text review) && encodable (Review.sentiment review)
      && encodable (Review.created_at review) = true ->
    largest_rowid t < MAX_ROWID ->
    tl (medium c) = Some f :: later ->
    insert_outcome review c
      (Raise (sqlite3_Error (rc f)),
       {| disk := disk c;
          txn := if txn_survives f
                 then Some (append_row t (Review.text review)
                              (Review.sentiment review) (Review.created_at review))
                 else None;
          medium := later |})
| insert_stored t :
    hd None (medium c) = None ->
    visible c = Some t ->
    encodable (Review.text review) && encodable (Review.sentiment review)
      && encodable (Review.created_at review) = true ->
    largest_rowid t < MAX_ROWID ->
    hd None (tl (medium c)) = None ->
    insert_outcome review c
      (Ok (Review.set_id review (Some (largest_rowid t + 1))),
       {| disk := Some (append_row t (Review.text review)
                          (Review.sentiment review) (Review.created_at review));
          txn := None;
          medium := tl (tl (medium c)) |}).

(** The small letter of a capital of the Latin or the Russian alphabet;
    any other code point is left as it is. *)
Definition small (c : Z) : Z :=
  if (0x41 <=? c) && (c <=? 0x5A) then c + 32
  else if (0x410 <=? c) && (c <=? 0x42F) then c + 32
  else if (0x400 <=? c) && (c <=? 0x40F) then c + 80
  else c.

(** What [lower] makes of a code point and of its small letter is the
    same, and so is what the neighbours of a sigma see of them. *)
Definition same_case_data (c : Z) : bool :=
  str_eqb (to_lower_full (small c)) (to_lower_full c)
  && Bool.eqb (is_cased (small c)) (is_cased c)
  && Bool.eqb (is_case_ignorable (small c)) (is_case_ignorable c)
  && Bool.eqb (small c =? 0x3A3) (c =? 0x3A3).

(** ** The views

    [request.get_json()] yields a Python value built from the JSON body:
    [None], a [bool], an [int], a [float] (given here by the 64 bits of its
    IEEE 754 encoding), a [str], a [list] or a [dict] (given by its items,
    each key once). *)

#[warnings="-register-all"]
Inductive json :=
| JNull
| JBool (b : bool)
| JInt (n : Z)
| JFloat (bits : Z)
| JString (s : str)
| JArray (elements : list json)
| JObject (items : list (str * json)).

(** [d.get(key, default)] *)
Fixpoint dict_get (items : list (str * json)) (key : str) (default : json) : json :=
  match items with
  | [] => default
  | (k, v) :: more => if str_eqb k key then v else dict_get more key default
  end.

(** The truth value of a Python value: [None], [False], zero of either
    sign and the empty string, list and dict are false. *)
Definition truthy (v : json) : bool :=
  match v with
  | JNull => false
  | JBool b => b
  | JInt n => negb (n =? 0)
  | JFloat bits => negb (bits mod 2 ^ 63 =? 0)
  | JString s => match s with [] => false | _ :: _ => true end
  | JArray elements => match elements with [] => false | _ :: _ => true end
  | JObject items => match items with [] => false | _ :: _ => true end
  end.

(** [jsonify] of a [Review]: the dict of its fields. *)
Definition asdict (r : Review.t) : json :=
  JObject [ (u "text", JString (Review.text r));
            (u "sentiment", JString (Review.sentiment r));
            (u "created_at", JString (Review.created_at r));
            (u "id", match Review.id r with Some i => JInt i | None => JNull end) ].

(** What a view comes to: a response, or an exception left to Flask. *)
Inductive view_result :=
| Responded (body : json) (status : Z)
| Raised (e : exn)
| RaisedAttributeError.

(** The application context [g]: whether a connection is kept in
    [g._database], and the connection. *)
Record AppContext := {
  _database : bool;
  connection : Connection
}.

(** [get_db]: the connection of the context, opened on first use.
    Opening the database file is an access to it. *)
Definition get_db (g : AppContext) : result unit * AppContext :=
  if _database g then (Ok tt, g)
  else
    match access (connection g) with
    | (Ok _, c) => (Ok tt, {| _database := true; connection := c |})
    | (Raise e, c) => (Raise e, {| _database := false; connection := c |})
    end.

(** The teardown handler of the application context, [close_connection]
    in the source: it closes the connection if one was opened. *)
Definition teardown_appcontext (g : AppContext) : AppContext :=
  if _database g
  then {| _database := _database g; connection := close_connection (connection g) |}
  else g.

(** [POST /reviews].  [ReviewService()] opens the connection;
    [add_review] then calls [text.lower()], which only a [str] has. *)
Definition add_review (now : datetime) (data : json) (g : AppContext)
  : view_result * AppContext :=
  match data with
  | JObject items =>
      let text := dict_get items (u "text") JNull in
      if negb (truthy text)
      then (Responded (JObject [(u "error", JString (u "Field 'text' is required"))]) 400, g)
      else
        match get_db g with
        | (Raise e, g') => (Raised e, g')
        | (Ok _, g') =>
            match text with
            | JString s =>
                match ReviewService.add_review now s (connection g') with
                | (Ok review, c) =>
                    (Responded (asdict review) 201,
                     {| _database := _database g'; connection := c |})
                | (Raise e, c) =>
                    (Raised e, {| _database := _database g'; connection := c |})
                end
            | _ => (RaisedAttributeError, g')
            end
        end
  | _ => (RaisedAttributeError, g)
  end.

(** [GET /reviews]; [sentiment] is the query parameter, if given. *)
Definition get_reviews (sentiment : option str) (g : AppContext)
  : view_result * AppContext :=
  let sentiment := match sentiment with Some s => s | None => [] end in
  match get_db g with
  | (Raise e, g') => (Raised e, g')
  | (Ok _, g') =>
      match ReviewService.get_reviews_by_sentiment sentiment (connection g') with
      | (Ok reviews, c) =>
          (Responded (JArray (map asdict reviews)) 200,
           {| _database := _database g'; connection := c |})
      | (Raise e, c) =>
          (Raised e, {| _database := _database g'; connection := c |})
      end
  end.

(** One request: the view runs in a new application context, which is
    torn down afterwards whatever the view came to. *)
Definition request (view : AppContext -> view_result * AppContext)
           (c : Connection) : view_result * Connection :=
  let (r, g) := view {| _database := false; connection := c |} in
  (r, connection (teardown_appcontext g)).

Inductive http_request :=
| POST (now : datetime) (data : json)
| GET (sentiment : option str).

Definition handle (q : http_request) (c : Connection) : view_result * Connection :=
  match q with
  | POST now data => request (add_review now data) c
  | GET sentiment => request (get_reviews sentiment) c
  end.

(** The connection after a sequence of requests. *)
Definition handle_all (qs : list http_request) (c : Connection) : Connection :=
  fold_left (fun c q => snd (handle q c)) qs c.

(** A table in which the rows are numbered 1, 2, ... without gaps, the
    next rowid follows the last one, and text and sentiment of every row
    satisfy [P]. *)
Definition tidy (P : str -> str -> Prop) (t : Table) : Prop :=
  map row_id (rows t) = map Z.of_nat (seq 1 (length (rows t))) /\
  largest_rowid t = Z.of_nat (length (rows t)) /\
  Forall (fun r => P (row_text r) (row_sentiment r)) (rows t).

(** The committed table is tidy, and so is the table of the open
    transaction if there is one. *)
Definition tidy_connection (P : str -> str -> Prop) (c : Connection) : Prop :=
  (exists t, disk c = Some t /\ tidy P t) /\
  match txn c with
  | Some t => tidy P t
  | None => True
  end.

(** Text and sentiment as [add_review] pairs them. *)
Definition labelled (text sentiment : str) : Prop :=
  sentiment = SentimentChecker.check text.

(** Text and sentiment as the view [add_review] lets them through. *)
Definition posted (text sentiment : str) : Prop :=
  text <> [] /\ sentiment = SentimentChecker.check text.

(** A table entry none of whose images is a Latin or Russian capital. *)
Definition entry_image_small (e : Z * Z * Z * Z) : bool :=
  let '(lo, hi, _, delta) := e in
  ((hi + delta <? 0x41) || (0x5A <? lo + delta))
  && ((hi + delta <? 0x400) || (0x42F <? lo + delta)).

(** A code point of the Latin alphabet, with the digits and signs of
    ASCII, or of the Russian alphabet. *)
Definition latin_or_russian (c : Z) : bool :=
  ((0 <=? c) && (c <? 0x80)) || ((0x400 <=? c) && (c <=? 0x45F)).

(** * Properties *)

(** ** Strings *)

Lemma str_eqb_eq (a b : str) : str_eqb a b = true <-> a = b.
Proof.
  revert b; induction a as [|x a IH]; intros [|y b]; simpl;
    try (split; [discriminate | congruence]); try tauto.
  rewrite andb_true_iff, Z.eqb_eq, IH.
  split; [intros [-> ->]; reflexivity | intros [= -> ->]; auto].
Qed.

Lemma str_eqb_refl (a : str) : str_eqb a a = true.
Proof. apply str_eqb_eq; reflexivity. Qed.

Lemma str_eqb_neq (a b : str) : str_eqb a b = false <-> a <> b.
Proof.
  rewrite <- str_eqb_eq. destruct (str_eqb a b); split; congruence.
Qed.

(** ** [str.count] finds a largest packing *)

Lemma startswith_occurs (sub s : str) :
  startswith s sub = true <-> occurs_at sub s 0.
Proof.
  unfold occurs_at; simpl.
  revert s; induction sub as [|p q IH]; intros s; simpl.
  - split; reflexivity.
  - destruct s as [|c s]; simpl.
    + split; discriminate.
    + rewrite andb_true_iff, Z.eqb_eq, IH.
      split; [intros [-> ->]; reflexivity | intros [= -> E]; rewrite E; auto].
Qed.

Section Counting.

Variable sub : str.
Hypothesis sub_not_empty : sub <> [].

Lemma occurs_at_cons (c : Z) (s : str) (i : nat) :
  occurs_at sub (c :: s) (S i) <-> occurs_at sub s i.
Proof. reflexivity. Qed.

Lemma packing_weaken (s : str) (ps : list nat) (from from' : nat) :
  (from' <= from)%nat -> packing sub s from ps -> packing sub s from' ps.
Proof.
  destruct ps as [|p ps]; simpl; [tauto|].
  intros Hle (Hp & Ho & Hps); repeat split; auto; lia.
Qed.

Lemma packing_cons (c : Z) (s : str) (ps : list nat) (from : nat) :
  packing sub s from ps -> packing sub (c :: s) (S from) (map S ps).
Proof.
  revert from; induction ps as [|p ps IH]; simpl; intros from; [tauto|].
  intros (Hp & Ho & Hps); repeat split; [lia | exact Ho |].
  apply (IH (p + length sub)%nat); exact Hps.
Qed.

Lemma packing_uncons (c : Z) (s : str) (ps : list nat) (from : nat) :
  packing sub (c :: s) (S from) ps ->
  exists ps', ps = map S ps' /\ packing sub s from ps'.
Proof.
  revert from; induction ps as [|p ps IH]; simpl; intros from.
  - exists []; split; auto; exact I.
  - intros (Hp & Ho & Hps).
    destruct p as [|p]; [lia|].
    destruct (IH (p + length sub)%nat Hps) as (ps' & -> & Hps').
    exists (p :: ps'); simpl; repeat split; auto; lia.
Qed.

Lemma packing_empty_text (from : nat) (ps : list nat) :
  packing sub [] from ps -> ps = [].
Proof.
  destruct ps as [|p ps]; [reflexivity|].
  intros (_ & Ho & _). unfold occurs_at in Ho.
  rewrite skipn_nil, firstn_nil in Ho. symmetry in Ho; contradiction.
Qed.

Lemma count_scan_packs (s : str) (skip : nat) :
  exists ps, packing sub s skip ps /\ length ps = count_scan sub skip s.
Proof.
  revert skip; induction s as [|c s IH]; intros skip; simpl.
  - exists []; split; [exact I | reflexivity].
  - destruct skip as [|k].
    + destruct (startswith (c :: s) sub) eqn:E.
      * destruct (IH (length sub - 1)%nat) as (ps & Hps & Hlen).
        exists (0%nat :: map S ps); simpl; repeat split.
        -- lia.
        -- apply startswith_occurs; exact E.
        -- apply packing_cons with (c := c) in Hps.
           eapply packing_weaken; [|exact Hps].
           destruct sub; [contradiction | simpl; lia].
        -- rewrite length_map, Hlen; reflexivity.
      * destruct (IH 0%nat) as (ps & Hps & Hlen).
        exists (map S ps); split.
        -- eapply packing_weaken; [|apply packing_cons; exact Hps]; lia.
        -- rewrite length_map; exact Hlen.
    + destruct (IH k) as (ps & Hps & Hlen).
      exists (map S ps); split.
      * apply packing_cons; exact Hps.
      * rewrite length_map; exact Hlen.
Qed.

Lemma count_scan_bounds (s : str) (skip : nat) (ps : list nat) :
  packing sub s skip ps -> (length ps <= count_scan sub skip s)%nat.
Proof.
  revert skip ps; induction s as [|c s IH]; intros skip ps Hps.
  - apply packing_empty_text in Hps; subst; simpl; lia.
  - simpl. destruct skip as [|k].
    + destruct (startswith (c :: s) sub) eqn:E.
      * destruct ps as [|p ps]; [simpl; lia|].
        destruct Hps as (_ & _ & Hps).
        assert (Hps' : packing sub (c :: s) (S (length sub - 1)) ps).
        { eapply packing_weaken; [|exact Hps].
          destruct sub; [contradiction | simpl; lia]. }
        apply packing_uncons in Hps' as (ps' & -> & Hps').
        apply IH in Hps'. simpl; rewrite length_map; lia.
      * assert (Hps' : packing sub (c :: s) 1 ps).
        { destruct ps as [|p ps]; [exact I|].
          destruct Hps as (Hp & Ho & Hps); repeat split; auto.
          destruct p; [|lia].
          apply startswith_occurs in Ho; congruence. }
        apply packing_uncons in Hps' as (ps' & -> & Hps').
        apply IH in Hps'. rewrite length_map; exact Hps'.
    + apply packing_uncons in Hps as (ps' & -> & Hps').
      apply IH in Hps'. rewrite length_map; exact Hps'.
Qed.

Lemma count_nonempty (s : str) : count s sub = count_scan sub 0 s.
Proof.
  unfold count. destruct sub; [contradiction | reflexivity].
Qed.

Lemma count_occurrences (s : str) : occurrences s sub (count s sub).
Proof.
  rewrite count_nonempty. split.
  - apply count_scan_packs.
  - apply count_scan_bounds.
Qed.

End Counting.

Lemma occurrences_unique (s sub : str) (n n' : nat) :
  occurrences s sub n -> occurrences s sub n' -> n = n'.
Proof.
  intros [(ps & Hps & Hn) Hmax] [(ps' & Hps' & Hn') Hmax'].
  apply Hmax' in Hps. apply Hmax in Hps'. lia.
Qed.

(** ** The classifier *)

Import SentimentChecker.

Lemma sum_list_sum (xs : list nat) : sum xs = list_sum xs.
Proof.
  unfold sum. rewrite <- (Nat.add_0_r (list_sum xs)).
  generalize 0%nat as acc.
  induction xs as [|x xs IH]; intros acc; simpl.
  - reflexivity.
  - rewrite IH; lia.
Qed.

Lemma check_unfold (text : str) :
  check text =
  if (neg_count text <? pos_count text)%nat then u "positive"
  else if (pos_count text <? neg_count text)%nat then u "negative"
  else u "neutral".
Proof. unfold check, pos_count, neg_count; cbv zeta; reflexivity. Qed.

Lemma markers_not_empty : Forall (fun m => m <> []) (POSITIVE ++ NEGATIVE).
Proof. repeat constructor; discriminate. Qed.

Lemma marker_total_count (markers : list str) (s : str) :
  Forall (fun m => m <> []) markers ->
  marker_total markers s (sum (map (fun m => count s m) markers)).
Proof.
  intros Hne. exists (map (fun m => count s m) markers). split.
  - induction Hne as [|m ms Hm _ IH]; simpl; constructor; auto.
    apply count_occurrences; exact Hm.
  - apply sum_list_sum.
Qed.

Lemma marker_total_unique (markers : list str) (s : str) (n n' : nat) :
  marker_total markers s n -> marker_total markers s n' -> n = n'.
Proof.
  intros (cs & Hcs & ->) (cs' & Hcs' & ->). f_equal.
  revert cs' Hcs'; induction Hcs as [|m c ms cs Hc _ IH]; intros cs' Hcs';
    inversion Hcs' as [|m' c' ms' cs'' Hc' Hrest]; subst.
  - reflexivity.
  - f_equal; [eapply occurrences_unique; eassumption | apply IH; assumption].
Qed.

Lemma contains_occurs (s sub : str) (i : nat) :
  sub <> [] -> occurs_at sub s i -> contains s sub = true.
Proof.
  intros Hne Ho. unfold contains. apply existsb_exists. exists i. split.
  - apply in_seq. split; [lia|]. simpl.
    destruct (Nat.le_gt_cases i (length s)) as [Hle|Hgt]; [lia|].
    unfold occurs_at in Ho. rewrite skipn_all2, firstn_nil in Ho by lia.
    symmetry in Ho; contradiction.
  - apply startswith_occurs. exact Ho.
Qed.

Lemma count_absent (s sub : str) :
  sub <> [] -> contains s sub = false -> count s sub = 0%nat.
Proof.
  intros Hne Hno. rewrite count_nonempty by exact Hne.
  destruct (count_scan_packs sub Hne s 0) as (ps & Hps & Hlen).
  destruct ps as [|p ps]; [symmetry; exact Hlen|].
  destruct Hps as (_ & Ho & _).
  apply contains_occurs in Ho; [congruence | exact Hne].
Qed.

Lemma sum_zero (xs : list nat) : Forall (fun x => x = 0%nat) xs -> sum xs = 0%nat.
Proof.
  rewrite sum_list_sum. induction 1 as [|x xs -> _ IH]; simpl; auto.
Qed.

Lemma sum_count_absent (markers : list str) (s : str) :
  Forall (fun m => m <> []) markers ->
  forallb (fun m => negb (contains s m)) markers = true ->
  sum (map (fun m => count s m) markers) = 0%nat.
Proof.
  intros Hne Hno. apply sum_zero. apply Forall_map.
  rewrite forallb_forall in Hno. rewrite Forall_forall in *.
  intros m Hm. apply count_absent; [auto|].
  apply Hno in Hm. destruct (contains s m); [discriminate | reflexivity].
Qed.

(** C7: [check] returns one of the three labels on every text; the empty
    text, and every text whose lowercase form contains no marker, is
    [neutral]. *)
Theorem check_total (text : str) :
  In (check text) [u "positive"; u "negative"; u "neutral"] /\
  check [] = u "neutral" /\
  (forallb (fun m => negb (contains (lower text) m)) (POSITIVE ++ NEGATIVE) = true ->
   check text = u "neutral").
Proof.
  split; [|split].
  - rewrite check_unfold.
    destruct (neg_count text <? pos_count text)%nat;
      [|destruct (pos_count text <? neg_count text)%nat].
    + left; reflexivity.
    + right; left; reflexivity.
    + right; right; left; reflexivity.
  - vm_compute; reflexivity.
  - intros Hno. rewrite forallb_app, andb_true_iff in Hno. destruct Hno as [Hp Hn].
    pose proof markers_not_empty as Hne. apply Forall_app in Hne as [Hpos Hneg].
    rewrite check_unfold. unfold pos_count, neg_count.
    rewrite (sum_count_absent _ _ Hpos Hp), (sum_count_absent _ _ Hneg Hn).
    reflexivity.
Qed.

Lemma check_total_witness :
  check (u "the weather is fine") = u "neutral".
Proof.
  apply (proj2 (proj2 (check_total (u "the weather is fine")))).
  vm_compute. reflexivity.
Defined.

(** *** Order of the words *)

Lemma startswith_length (s sub : str) :
  startswith s sub = true -> (length sub <= length s)%nat.
Proof.
  revert s; induction sub as [|p q IH]; intros s; simpl; [lia|].
  destruct s as [|c s]; [discriminate|].
  rewrite andb_true_iff; intros [_ H]. apply IH in H. simpl; lia.
Qed.

Lemma startswith_separated (sep : Z) (sub x y : str) :
  existsb (Z.eqb sep) sub = false ->
  startswith (x ++ sep :: y) sub = startswith x sub.
Proof.
  revert x; induction sub as [|p q IH]; intros x Hsep; simpl; [reflexivity|].
  simpl in Hsep. apply orb_false_iff in Hsep as [Hp Hq].
  destruct x as [|c x]; simpl.
  - rewrite Hp; reflexivity.
  - rewrite IH by exact Hq; reflexivity.
Qed.

Lemma count_scan_separated (sep : Z) (sub y : str) :
  sub <> [] ->
  existsb (Z.eqb sep) sub = false ->
  forall (x : str) (skip : nat),
    (skip <= length x)%nat ->
    count_scan sub skip (x ++ sep :: y)
    = (count_scan sub skip x + count_scan sub 0 y)%nat.
Proof.
  intros Hne Hsep. induction x as [|c x IH]; intros skip Hskip.
  - simpl in Hskip. assert (skip = 0%nat) as -> by lia.
    change ([] ++ sep :: y) with (sep :: y). simpl count_scan.
    assert (E : startswith (sep :: y) sub = false).
    { destruct sub as [|p q]; [contradiction|].
      simpl in Hsep |- *. apply orb_false_iff in Hsep as [-> _]. reflexivity. }
    rewrite E. reflexivity.
  - change ((c :: x) ++ sep :: y) with (c :: (x ++ sep :: y)). simpl count_scan.
    destruct skip as [|k].
    + change (c :: (x ++ sep :: y)) with ((c :: x) ++ sep :: y).
      rewrite startswith_separated by exact Hsep.
      destruct (startswith (c :: x) sub) eqn:E.
      * apply startswith_length in E. simpl in E.
        rewrite IH by lia. reflexivity.
      * apply IH; lia.
    + apply IH. simpl in Hskip; lia.
Qed.

Lemma count_separated (sep : Z) (sub x y : str) :
  sub <> [] ->
  existsb (Z.eqb sep) sub = false ->
  count (x ++ sep :: y) sub = (count x sub + count y sub)%nat.
Proof.
  intros Hne Hsep. rewrite !count_nonempty by exact Hne.
  apply count_scan_separated; auto; lia.
Qed.

Lemma sum_count_separated (sep : Z) (markers : list str) (x y : str) :
  Forall (fun m => m <> []) markers ->
  forallb (fun m => negb (existsb (Z.eqb sep) m)) markers = true ->
  sum (map (fun m => count (x ++ sep :: y) m) markers)
  = (sum (map (fun m => count x m) markers)
     + sum (map (fun m => count y m) markers))%nat.
Proof.
  intros Hne Hsep. rewrite !sum_list_sum.
  induction Hne as [|m ms Hm _ IH]; simpl; [reflexivity|].
  simpl in Hsep. apply andb_true_iff in Hsep as [Hm' Hms].
  rewrite IH by exact Hms.
  rewrite count_separated; [lia | exact Hm |].
  destruct (existsb (Z.eqb sep) m); [discriminate | reflexivity].
Qed.

Lemma alike_refl (s : str) : Forall2 alike s s.
Proof. induction s; constructor; [left; reflexivity | assumption]. Qed.

Lemma in_marker_member (m : str) (p : Z) :
  In m (POSITIVE ++ NEGATIVE) -> In p m -> in_marker p = true.
Proof.
  intros Hm Hp. unfold in_marker. apply existsb_exists. exists m. split; [exact Hm|].
  apply existsb_exists. exists p. split; [exact Hp | apply Z.eqb_refl].
Qed.

Lemma startswith_alike (sub s s' : str) :
  (forall p, In p sub -> in_marker p = true) ->
  Forall2 alike s s' -> startswith s sub = startswith s' sub.
Proof.
  revert s s'. induction sub as [|p q IH]; intros s s' Hq H; [reflexivity|].
  destruct H as [|c c' r r' Hc Hr]; [reflexivity|]. cbn [startswith].
  rewrite (IH r r') by (auto; intros x Hx; apply Hq; right; exact Hx).
  destruct Hc as [-> | [Hc Hc']]; [reflexivity|].
  assert (Hp : in_marker p = true) by (apply Hq; left; reflexivity).
  replace (c =? p) with false
    by (symmetry; apply Z.eqb_neq; intros ->; congruence).
  replace (c' =? p) with false
    by (symmetry; apply Z.eqb_neq; intros ->; congruence).
  reflexivity.
Qed.

Lemma count_scan_alike (sub s s' : str) :
  (forall p, In p sub -> in_marker p = true) ->
  Forall2 alike s s' ->
  forall skip, count_scan sub skip s = count_scan sub skip s'.
Proof.
  intros Hq. induction 1 as [|c c' r r' Hc Hr IH]; intros skip; [reflexivity|].
  cbn [count_scan]. destruct skip as [|k]; [|apply IH].
  rewrite (startswith_alike sub (c :: r) (c' :: r') Hq) by (constructor; assumption).
  rewrite !IH. reflexivity.
Qed.

Lemma count_alike (sub s s' : str) :
  (forall p, In p sub -> in_marker p = true) ->
  Forall2 alike s s' -> count s sub = count s' sub.
Proof.
  intros Hq H. unfold count. destruct sub as [|p q].
  - f_equal. eapply Forall2_length; exact H.
  - apply count_scan_alike; assumption.
Qed.

(** The lowercase form of a code point depends on its neighbours only in
    the choice between the two small sigmas, and no marker has a sigma. *)
Lemma lower_ucs4_alike (before before' : str) (c : Z) (after after' : str) :
  Forall2 alike (lower_ucs4 before c after) (lower_ucs4 before' c after').
Proof.
  unfold lower_ucs4. destruct (c =? 0x3A3); [|apply alike_refl].
  constructor; [|constructor]. right. unfold handle_capital_sigma.
  split;
    match goal with |- in_marker (if ?b then _ else _) = false =>
      destruct b; vm_compute; reflexivity
    end.
Qed.

Lemma do_lower_alike (s before before' : str) :
  Forall2 alike (do_lower before s) (do_lower before' s).
Proof.
  revert before before'; induction s as [|c s IH]; intros before before';
    [constructor|].
  cbn [do_lower]. apply Forall2_app; [apply lower_ucs4_alike | apply IH].
Qed.

Lemma do_lower_separated (sep : Z) (a b before before' : str) :
  (sep =? 0x3A3) = false ->
  to_lower_full sep = [sep] ->
  Forall2 alike (do_lower before (a ++ sep :: b))
                (do_lower before' a ++ sep :: lower b).
Proof.
  intros Hs Hl. revert before before'; induction a as [|c a IH]; intros before before'.
  - cbn [app do_lower]. unfold lower_ucs4 at 1. rewrite Hs, Hl. cbn [app].
    constructor; [left; reflexivity | apply do_lower_alike].
  - change ((c :: a) ++ sep :: b) with (c :: (a ++ sep :: b)). cbn [do_lower].
    rewrite <- app_assoc. apply Forall2_app; [apply lower_ucs4_alike | apply IH].
Qed.

Lemma lower_separated (sep : Z) (a b : str) :
  separator sep = true ->
  Forall2 alike (lower (a ++ sep :: b)) (lower a ++ sep :: lower b).
Proof.
  unfold separator. rewrite !andb_true_iff, !negb_true_iff, str_eqb_eq.
  intros [[Hs Hl] _]. apply do_lower_separated; assumption.
Qed.

Lemma sum_count_alike (markers : list str) (s s' : str) :
  (forall m, In m markers -> In m (POSITIVE ++ NEGATIVE)) ->
  Forall2 alike s s' ->
  sum (map (fun m => count s m) markers) = sum (map (fun m => count s' m) markers).
Proof.
  intros Hin H. f_equal. apply map_ext_in. intros m Hm.
  apply count_alike; [|exact H].
  intros p Hp. eapply in_marker_member; [apply Hin; exact Hm | exact Hp].
Qed.

Lemma counts_separated (sep : Z) (a b : str) :
  separator sep = true ->
  pos_count (a ++ sep :: b) = (pos_count a + pos_count b)%nat /\
  neg_count (a ++ sep :: b) = (neg_count a + neg_count b)%nat.
Proof.
  intros Hsep. unfold pos_count, neg_count.
  pose proof (lower_separated sep a b Hsep) as Hl.
  rewrite (sum_count_alike POSITIVE _ _ (fun m Hm => in_or_app _ _ m (or_introl Hm)) Hl).
  rewrite (sum_count_alike NEGATIVE _ _ (fun m Hm => in_or_app _ _ m (or_intror Hm)) Hl).
  unfold separator in Hsep. rewrite !andb_true_iff, forallb_app in Hsep.
  destruct Hsep as [_ Hm]. apply andb_true_iff in Hm as [Hp Hn].
  pose proof markers_not_empty as Hne. apply Forall_app in Hne as [Hpos Hneg].
  split; apply sum_count_separated; assumption.
Qed.

Lemma check_same_counts (s t : str) :
  pos_count s = pos_count t -> neg_count s = neg_count t -> check s = check t.
Proof.
  intros Hp Hn. rewrite (check_unfold s), (check_unfold t).
  destruct Hp, Hn. reflexivity.
Qed.

(** C9, as stated, fails: a marker that straddles the junction of the two
    halves is counted in one order and not in the other. *)
Lemma check_concat_not_commutative :
  check (u "хор" ++ u "ош") <> check (u "ош" ++ u "хор").
Proof. vm_compute. discriminate. Qed.

(** C9, amended: the label depends on the text through the two totals only,
    so two texts with the same totals have the same label; and two texts
    joined by a separator, a code point that [str.lower] leaves as it is
    and that is part of no marker, have the same label in either order. *)
Theorem check_order_independent (a b : str) :
  (pos_count a = pos_count b -> neg_count a = neg_count b -> check a = check b) /\
  (forall sep, separator sep = true ->
               check (a ++ sep :: b) = check (b ++ sep :: a)).
Proof.
  split.
  - apply check_same_counts.
  - intros sep Hsep.
    destruct (counts_separated sep a b Hsep) as [Hp Hn].
    destruct (counts_separated sep b a Hsep) as [Hp' Hn'].
    apply check_same_counts; lia.
Qed.

Lemma check_order_independent_witness :
  check (u "я люблю") = check (u "хорошо") /\
  check (u "хор" ++ 32 :: u "ош") = check (u "ош" ++ 32 :: u "хор") /\
  check (u "это плохо" ++ 46 :: u "Я ЛЮБЛЮ хороший ЧАЙ")
  = check (u "Я ЛЮБЛЮ хороший ЧАЙ" ++ 46 :: u "это плохо").
Proof.
  split; [|split].
  - apply (proj1 (check_order_independent (u "я люблю") (u "хорошо")));
      vm_compute; reflexivity.
  - apply (proj2 (check_order_independent (u "хор") (u "ош")) 32).
    vm_compute; reflexivity.
  - apply (proj2 (check_order_independent (u "это плохо") (u "Я ЛЮБЛЮ хороший ЧАЙ")) 46).
    vm_compute; reflexivity.
Defined.

(** ** The connection *)

Lemma bind_ok {A B} (m : M A) (k : A -> M B) (c c1 : Connection) (a : A) :
  m c = (Ok a, c1) -> bind m k c = k a c1.
Proof. unfold bind; intros ->; reflexivity. Qed.

Lemma bind_raise {A B} (m : M A) (k : A -> M B) (c c1 : Connection) (e : exn) :
  m c = (Raise e, c1) -> bind m k c = (Raise e, c1).
Proof. unfold bind; intros ->; reflexivity. Qed.

Lemma reachable_1 (c : Connection) :
  reachable 1 c <-> hd None (medium c) = None.
Proof.
  unfold reachable. destruct (medium c) as [|o later]; simpl.
  - split; auto.
  - split; [intros H; inversion H; auto | intros ->; auto].
Qed.

Lemma reachable_S (n : nat) (c : Connection) :
  reachable (S n) c <-> hd None (medium c) = None /\ reachable n (advance c).
Proof.
  unfold reachable, advance; simpl. destruct (medium c) as [|o later]; simpl.
  - rewrite firstn_nil. split; auto.
  - split; [intros H; inversion H; auto | intros [-> H]; auto].
Qed.

Lemma access_works (c : Connection) :
  hd None (medium c) = None -> access c = (Ok tt, advance c).
Proof.
  unfold access, advance. destruct (medium c) as [|[f|] later]; simpl;
    [reflexivity | discriminate | reflexivity].
Qed.

Lemma access_fails (c : Connection) (f : fault) (later : list (option fault)) :
  medium c = Some f :: later ->
  access c = (Raise (sqlite3_Error (rc f)),
              {| disk := disk c;
                 txn := if txn_survives f then txn c else None;
                 medium := later |}).
Proof. unfold access; intros ->; reflexivity. Qed.

Lemma access_cases (c : Connection) :
  (hd None (medium c) = None /\ access c = (Ok tt, advance c)) \/
  (exists f later, medium c = Some f :: later /\
     access c = (Raise (sqlite3_Error (rc f)),
                 {| disk := disk c;
                    txn := if txn_survives f then txn c else None;
                    medium := later |})).
Proof.
  destruct (medium c) as [|[f|] later] eqn:E.
  - left; split; [reflexivity | apply access_works; rewrite E; reflexivity].
  - right; exists f, later; split; [reflexivity | apply access_fails; exact E].
  - left; split; [reflexivity | apply access_works; rewrite E; reflexivity].
Qed.

Lemma commit_works (c : Connection) (t : Table) :
  txn c = Some t ->
  hd None (medium c) = None ->
  commit c = (Ok tt, {| disk := Some t; txn := None; medium := tl (medium c) |}).
Proof.
  intros Ht Hm. unfold commit. rewrite Ht.
  erewrite bind_ok by (apply access_works; exact Hm). reflexivity.
Qed.

Lemma commit_fails (c : Connection) (t : Table) (f : fault)
      (later : list (option fault)) :
  txn c = Some t ->
  medium c = Some f :: later ->
  commit c = (Raise (sqlite3_Error (rc f)),
              {| disk := disk c;
                 txn := if txn_survives f then Some t else None;
                 medium := later |}).
Proof.
  intros Ht Hm. unfold commit. rewrite Ht.
  erewrite bind_raise by (apply access_fails; exact Hm).
  rewrite Ht. reflexivity.
Qed.

(** What [execute_insert] does, case by case. *)
Lemma execute_insert_cases (text sentiment created : str) (c : Connection) :
  execute_insert text sentiment created c
  = match medium c with
    | Some f :: later =>
        (Raise (sqlite3_Error (rc f)),
         {| disk := disk c;
            txn := if txn_survives f then txn c else None;
            medium := later |})
    | _ =>
        match visible c with
        | None => (Raise (sqlite3_Error SQLITE_ERROR), advance c)
        | Some t =>
            if encodable text && encodable sentiment && encodable created
            then
              if largest_rowid t >=? MAX_ROWID
              then (Raise (sqlite3_Error SQLITE_FULL),
                    {| disk := disk c; txn := None; medium := tl (medium c) |})
              else (Ok (largest_rowid t + 1),
                    {| disk := disk c;
                       txn := Some (append_row t text sentiment created);
                       medium := tl (medium c) |})
            else (Raise UnicodeEncodeError,
                  {| disk := disk c; txn := Some t; medium := tl (medium c) |})
        end
    end.
Proof.
  unfold execute_insert.
  destruct (access_cases c) as [[Hm Ha]|(f & later & Hm & Ha)].
  - erewrite bind_ok by exact Ha.
    replace (match medium c with
             | Some f :: later =>
                 (Raise (sqlite3_Error (rc f)),
                  {| disk := disk c;
                     txn := if txn_survives f then txn c else None;
                     medium := later |})
             | _ =>
                 match visible c with
                 | None => (Raise (sqlite3_Error SQLITE_ERROR), advance c)
                 | Some t =>
                     if encodable text && encodable sentiment && encodable created
                     then
                       if largest_rowid t >=? MAX_ROWID
                       then (Raise (sqlite3_Error SQLITE_FULL),
                             {| disk := disk c; txn := None; medium := tl (medium c) |})
                       else (Ok (largest_rowid t + 1),
                             {| disk := disk c;
                                txn := Some (append_row t text sentiment created);
                                medium := tl (medium c) |})
                     else (Raise UnicodeEncodeError,
                           {| disk := disk c; txn := Some t; medium := tl (medium c) |})
                 end
             end)
      with (match visible c with
            | None => (Raise (sqlite3_Error SQLITE_ERROR), advance c)
            | Some t =>
                if encodable text && encodable sentiment && encodable created
                then
                  if largest_rowid t >=? MAX_ROWID
                  then (Raise (sqlite3_Error SQLITE_FULL),
                        {| disk := disk c; txn := None; medium := tl (medium c) |})
                  else (Ok (largest_rowid t + 1),
                        {| disk := disk c;
                           txn := Some (append_row t text sentiment created);
                           medium := tl (medium c) |})
                else (Raise UnicodeEncodeError,
                      {| disk := disk c; txn := Some t; medium := tl (medium c) |})
            end)
      by (destruct (medium c) as [|[f|] later];
          [reflexivity | discriminate | reflexivity]).
    unfold bind at 1, prepare. change (visible (advance c)) with (visible c).
    destruct (visible c) as [t|]; [|reflexivity].
    unfold bind, begin, bind_text, rollback, write, raise, ret, advance;
      cbn [disk txn medium].
    destruct (encodable text); [|reflexivity].
    destruct (encodable sentiment); [|reflexivity].
    destruct (encodable created); [|reflexivity].
    cbn [andb]. destruct (largest_rowid t >=? MAX_ROWID); reflexivity.
  - erewrite bind_raise by exact Ha. rewrite Hm. reflexivity.
Qed.

Lemma execute_insert_reachable (text sentiment created : str) (c : Connection) :
  hd None (medium c) = None ->
  execute_insert text sentiment created c
  = match visible c with
    | None => (Raise (sqlite3_Error SQLITE_ERROR), advance c)
    | Some t =>
        if encodable text && encodable sentiment && encodable created
        then
          if largest_rowid t >=? MAX_ROWID
          then (Raise (sqlite3_Error SQLITE_FULL),
                {| disk := disk c; txn := None; medium := tl (medium c) |})
          else (Ok (largest_rowid t + 1),
                {| disk := disk c;
                   txn := Some (append_row t text sentiment created);
                   medium := tl (medium c) |})
        else (Raise UnicodeEncodeError,
              {| disk := disk c; txn := Some t; medium := tl (medium c) |})
    end.
Proof.
  intros Hm. rewrite execute_insert_cases.
  destruct (medium c) as [|[f|] later]; [reflexivity | discriminate | reflexivity].
Qed.

Lemma insert_cases (review : Review.t) (c : Connection) :
  insert_outcome review c (ReviewRepository.insert review c).
Proof.
  unfold ReviewRepository.insert. unfold bind at 1.
  destruct (access_cases c) as [[Hm _]|(f & later & Hm & _)].
  2:{ rewrite execute_insert_cases, Hm. apply insert_unreachable. exact Hm. }
  rewrite (execute_insert_reachable _ _ _ c Hm).
  destruct (visible c) as [t|] eqn:Ev; [|apply insert_no_table; assumption].
  destruct (encodable (Review.text review) && encodable (Review.sentiment review)
            && encodable (Review.created_at review)) eqn:Ee;
    [|eapply insert_not_encodable; eassumption].
  destruct (Z.geb_spec (largest_rowid t) MAX_ROWID) as [Hfull|Hroom];
    [eapply insert_full; try eassumption; lia|].
  pose (c1 := {| disk := disk c;
                 txn := Some (append_row t (Review.text review)
                                (Review.sentiment review) (Review.created_at review));
                 medium := tl (medium c) |}).
  destruct (access_cases c1) as [[Hm2 _]|(f & later & Hm2 & _)]; cbn in Hm2.
  - pose proof (commit_works c1 _ eq_refl Hm2) as Hc.
    unfold c1 in Hc. rewrite (bind_ok _ _ _ _ _ Hc).
    cbn. apply insert_stored; assumption.
  - pose proof (commit_fails c1 _ f later eq_refl Hm2) as Hc.
    unfold c1 in Hc. rewrite (bind_raise _ _ _ _ _ Hc).
    cbn. eapply insert_not_committed; eassumption.
Qed.

Lemma fetch_all_works (c : Connection) (t : Table) :
  hd None (medium c) = None ->
  visible c = Some t ->
  ReviewRepository.fetch_all c = (Ok (map of_row (rows t)), advance c).
Proof.
  intros Hm Hv. unfold ReviewRepository.fetch_all, execute_select.
  assert (Hp : prepare (advance c) = (Ok t, advance c))
    by (unfold prepare; change (visible (advance c)) with (visible c);
        rewrite Hv; reflexivity).
  erewrite bind_ok; [reflexivity|].
  erewrite bind_ok by (apply access_works; exact Hm).
  erewrite bind_ok by exact Hp. reflexivity.
Qed.

Lemma fetch_by_sentiment_works (sentiment : str) (c : Connection) (t : Table) :
  hd None (medium c) = None ->
  visible c = Some t ->
  encodable sentiment = true ->
  ReviewRepository.fetch_by_sentiment sentiment c
  = (Ok (map of_row (filter (fun r => str_eqb (row_sentiment r) sentiment) (rows t))),
     advance c).
Proof.
  intros Hm Hv He. unfold ReviewRepository.fetch_by_sentiment, execute_select.
  assert (Hp : prepare (advance c) = (Ok t, advance c))
    by (unfold prepare; change (visible (advance c)) with (visible c);
        rewrite Hv; reflexivity).
  erewrite bind_ok; [reflexivity|].
  erewrite bind_ok by (apply access_works; exact Hm).
  erewrite bind_ok by exact Hp.
  unfold bind, bind_text. rewrite He. reflexivity.
Qed.

Lemma fetch_by_sentiment_not_encodable (sentiment : str) (c : Connection) (t : Table) :
  hd None (medium c) = None ->
  visible c = Some t ->
  encodable sentiment = false ->
  ReviewRepository.fetch_by_sentiment sentiment c = (Raise UnicodeEncodeError, advance c).
Proof.
  intros Hm Hv He. unfold ReviewRepository.fetch_by_sentiment, execute_select.
  assert (Hp : prepare (advance c) = (Ok t, advance c))
    by (unfold prepare; change (visible (advance c)) with (visible c);
        rewrite Hv; reflexivity).
  apply bind_raise.
  erewrite bind_ok by (apply access_works; exact Hm).
  erewrite bind_ok by exact Hp.
  unfold bind, bind_text. rewrite He. reflexivity.
Qed.

(** A query leaves the committed rows alone; a failed one may cost the
    connection its open transaction. *)
Lemma execute_select_state (w : option str) (c : Connection) :
  disk (snd (execute_select w c)) = disk c /\
  (txn (snd (execute_select w c)) = txn c \/ txn (snd (execute_select w c)) = None).
Proof.
  unfold execute_select.
  destruct (access_cases c) as [[Hm Ha]|(f & later & Hm & Ha)].
  - erewrite bind_ok by exact Ha.
    unfold bind, prepare, ret, raise, bind_text.
    destruct (visible (advance c)); [|simpl; auto].
    destruct w as [s|]; [destruct (encodable s)|]; simpl; auto.
  - erewrite bind_raise by exact Ha. simpl.
    destruct (txn_survives f); auto.
Qed.

Lemma fetch_state (sentiment : str) (c : Connection) :
  let c' := snd (ReviewService.get_reviews_by_sentiment sentiment c) in
  disk c' = disk c /\ (txn c' = txn c \/ txn c' = None).
Proof.
  assert (H : forall w,
             snd ((rows <- execute_select w ;; ret (map of_row rows)) c)
             = snd (execute_select w c)).
  { intros w. unfold bind, ret. destruct (execute_select w c) as [[rs|e] c']; reflexivity. }
  unfold ReviewService.get_reviews_by_sentiment.
  destruct sentiment as [|x s]; cbv zeta.
  - unfold ReviewRepository.fetch_all. rewrite H. apply execute_select_state.
  - unfold ReviewRepository.fetch_by_sentiment. rewrite H. apply execute_select_state.
Qed.

(** *** Rowids *)

Lemma max_rowid_nonneg (rs : list Row) : 0 <= max_rowid rs.
Proof. induction rs as [|r rs IH]; simpl; lia. Qed.

Lemma max_rowid_app (a b : list Row) :
  max_rowid (a ++ b) = Z.max (max_rowid a) (max_rowid b).
Proof.
  induction a as [|r a IH]; simpl.
  - pose proof (max_rowid_nonneg b). lia.
  - rewrite IH. lia.
Qed.

Lemma max_rowid_bounds (rs : list Row) :
  Forall (fun r => row_id r <= max_rowid rs) rs.
Proof.
  induction rs as [|r rs IH]; simpl; constructor.
  - lia.
  - eapply Forall_impl; [|exact IH]. simpl. intros; lia.
Qed.

Lemma largest_rowid_bounds (t : Table) :
  Forall (fun r => row_id r <= largest_rowid t) (rows t).
Proof.
  eapply Forall_impl; [|apply max_rowid_bounds].
  unfold largest_rowid. simpl. intros; lia.
Qed.

Lemma largest_append_row (t : Table) (a b d : str) :
  largest_rowid (append_row t a b d) = largest_rowid t + 1.
Proof.
  unfold largest_rowid, append_row; cbn [rows sequence].
  rewrite max_rowid_app. cbn [max_rowid fold_right row_id].
  fold (largest_rowid t). unfold largest_rowid.
  pose proof (max_rowid_nonneg (rows t)). lia.
Qed.

(** *** What is pending extends what is committed *)

Lemma visible_cases (c : Connection) (t : Table) :
  visible c = Some t ->
  txn c = Some t \/ (txn c = None /\ disk c = Some t).
Proof. unfold visible. destruct (txn c); [intros [= ->] | intros ->]; auto. Qed.

Lemma extends_refl (t : Table) : extends (Some t) t.
Proof.
  exists []. split; [cbn [stored]; rewrite app_nil_r; reflexivity|].
  split; [constructor | apply Z.le_refl].
Qed.

Lemma visible_extends (c : Connection) (t : Table) :
  pending_ok c -> visible c = Some t -> extends (disk c) t.
Proof.
  unfold pending_ok. intros Hok Hv.
  destruct (visible_cases c t Hv) as [E|[E1 E2]].
  - rewrite E in Hok; exact Hok.
  - rewrite E2. apply extends_refl.
Qed.

Lemma extends_append_row (d : Database) (t : Table) (text sentiment created : str) :
  extends d t ->
  sentiment = SentimentChecker.check text ->
  extends d (append_row t text sentiment created).
Proof.
  intros (pending & Hrows & Hcl & Hle) Hs.
  exists (pending ++ [{| row_id := largest_rowid t + 1; row_text := text;
                         row_sentiment := sentiment; row_created_at := created |}]).
  repeat split.
  - unfold append_row; cbn [rows]. rewrite Hrows, app_assoc. reflexivity.
  - apply Forall_app; split; [exact Hcl|]. constructor; [exact Hs | constructor].
  - rewrite largest_append_row. lia.
Qed.

Lemma extends_grows (d : Database) (t : Table) :
  extends d t ->
  (exists more, stored (Some t) = stored d ++ more /\ Forall classified more) /\
  largest d <= largest (Some t).
Proof.
  intros (pending & Hrows & Hcl & Hle). split; [|exact Hle].
  exists pending; auto.
Qed.

Lemma grows_refl (d : Database) :
  (exists more, stored d = stored d ++ more /\ Forall classified more) /\
  largest d <= largest d.
Proof. split; [exists []; rewrite app_nil_r; auto | lia]. Qed.

Lemma insert_step (review : Review.t) (c : Connection) :
  Review.sentiment review = SentimentChecker.check (Review.text review) ->
  pending_ok c ->
  let c' := snd (ReviewRepository.insert review c) in
  pending_ok c' /\
  (exists more, stored (disk c') = stored (disk c) ++ more /\ Forall classified more) /\
  largest (disk c) <= largest (disk c').
Proof.
  intros Hs Hok. pose proof (insert_cases review c) as H.
  destruct (ReviewRepository.insert review c) as [r c'] eqn:E. cbn [snd].
  inversion H; subst; cbn [disk txn]; unfold pending_ok; cbn [disk txn].
  - split; [|apply grows_refl]. destruct (txn_survives f); [exact Hok | exact I].
  - split; [exact Hok | apply grows_refl].
  - split; [eapply visible_extends; eassumption | apply grows_refl].
  - split; [exact I | apply grows_refl].
  - split; [|apply grows_refl]. destruct (txn_survives f); [|exact I].
    apply extends_append_row; [eapply visible_extends; eassumption | exact Hs].
  - split; [exact I|]. apply extends_grows.
    apply extends_append_row; [eapply visible_extends; eassumption | exact Hs].
Qed.

Lemma serve_step (k : call) (c : Connection) :
  pending_ok c ->
  pending_ok (serve k c) /\
  (exists more, stored (disk (serve k c)) = stored (disk c) ++ more
                /\ Forall classified more) /\
  largest (disk c) <= largest (disk (serve k c)).
Proof.
  intros Hok. destruct k as [now text|sentiment|]; cbn [serve].
  - apply insert_step; [reflexivity | exact Hok].
  - destruct (fetch_state sentiment c) as [Hd Ht].
    rewrite Hd. split; [|apply grows_refl].
    unfold pending_ok in *. rewrite Hd.
    destruct Ht as [-> | ->]; [exact Hok | exact I].
  - split; [exact I | apply grows_refl].
Qed.

Lemma run_steps (ks : list call) (c : Connection) :
  pending_ok c ->
  pending_ok (run ks c) /\
  (exists more, stored (disk (run ks c)) = stored (disk c) ++ more
                /\ Forall classified more) /\
  largest (disk c) <= largest (disk (run ks c)).
Proof.
  revert c; induction ks as [|k ks IH]; intros c Hok.
  - split; [exact Hok | apply grows_refl].
  - change (run (k :: ks) c) with (run ks (serve k c)).
    destruct (serve_step k c Hok) as (Hok1 & (m1 & E1 & C1) & L1).
    destruct (IH (serve k c) Hok1) as (Hok2 & (m2 & E2 & C2) & L2).
    split; [exact Hok2|]. split; [|lia].
    exists (m1 ++ m2). rewrite E2, E1, app_assoc. split; [reflexivity|].
    apply Forall_app; auto.
Qed.

(** *** When [insert] stores, and what *)

Lemma insert_stores (review : Review.t) (c : Connection) (t : Table) :
  visible c = Some t ->
  reachable 2 c ->
  encodable (Review.text review) = true ->
  encodable (Review.sentiment review) = true ->
  encodable (Review.created_at review) = true ->
  largest_rowid t < MAX_ROWID ->
  ReviewRepository.insert review c
  = (Ok (Review.set_id review (Some (largest_rowid t + 1))),
     {| disk := Some (append_row t (Review.text review)
                        (Review.sentiment review) (Review.created_at review));
        txn := None;
        medium := tl (tl (medium c)) |}).
Proof.
  intros Hv Hr E1 E2 E3 Hroom.
  apply reachable_S in Hr as [Hm1 Hr]. apply reachable_1 in Hr. cbn in Hr.
  pose proof (insert_cases review c) as H.
  inversion H as [f later Hm Heq | Hm Hv' Heq | t' Hm Hv' He Heq
                 | t' Hm Hv' He Hfull Heq | t' f later Hm Hv' He Hroom' Hm2 Heq
                 | t' Hm Hv' He Hroom' Hm2 Heq].
  - rewrite Hm in Hm1; discriminate.
  - congruence.
  - rewrite E1, E2, E3 in He; discriminate.
  - assert (t' = t) by congruence; subst. lia.
  - rewrite Hm2 in Hr; discriminate.
  - assert (t' = t) by congruence; subst. reflexivity.
Qed.

Lemma insert_stored_inv (review r : Review.t) (c c' : Connection) :
  ReviewRepository.insert review c = (Ok r, c') ->
  exists t,
    visible c = Some t /\
    reachable 2 c /\
    largest_rowid t < MAX_ROWID /\
    encodable (Review.text review) = true /\
    r = Review.set_id review (Some (largest_rowid t + 1)) /\
    c' = {| disk := Some (append_row t (Review.text review)
                            (Review.sentiment review) (Review.created_at review));
            txn := None;
            medium := tl (tl (medium c)) |}.
Proof.
  intros E. pose proof (insert_cases review c) as H. rewrite E in H.
  inversion H as [| | | | | t Hm Hv He Hroom Hm2]; subst.
  exists t. repeat split; try assumption.
  - apply reachable_S; split; [exact Hm|]. apply reachable_1; exact Hm2.
  - apply andb_true_iff in He as [He _]. apply andb_true_iff in He as [He _].
    exact He.
Qed.

Lemma insert_raise_inv (review : Review.t) (c c' : Connection) (e : exn) :
  ReviewRepository.insert review c = (Raise e, c') ->
  disk c' = disk c /\
  exists n, (1 <= n <= 2)%nat /\ medium c' = skipn n (medium c).
Proof.
  intros E. pose proof (insert_cases review c) as H. rewrite E in H.
  assert (Htl : tl (medium c) = skipn 1 (medium c))
    by (destruct (medium c); reflexivity).
  inversion H as [f later Hm | Hm Hv | t Hm Hv He | t Hm Hv He Hfull
                 | t f later Hm Hv He Hroom Hm2 |]; subst; cbn [disk medium advance];
    (split; [reflexivity|]).
  - exists 1%nat. rewrite Hm. split; [lia | reflexivity].
  - exists 1%nat. split; [lia | exact Htl].
  - exists 1%nat. split; [lia | exact Htl].
  - exists 1%nat. split; [lia | exact Htl].
  - exists 2%nat. split; [lia|].
    destruct (medium c) as [|o l]; [discriminate|]. cbn in Hm2 |- *.
    rewrite Hm2. reflexivity.
Qed.

(** *** The values [add_review] binds are plain text *)

Lemma encodable_app (a b : str) : encodable (a ++ b) = encodable a && encodable b.
Proof. apply forallb_app. Qed.

Lemma digits_encodable (width : nat) (n : Z) : encodable (digits width n) = true.
Proof.
  unfold encodable, digits. apply forallb_forall. intros c Hc.
  apply in_map_iff in Hc as (i & <- & _).
  pose proof (Z.mod_pos_bound (n / 10 ^ Z.of_nat i) 10 ltac:(lia)).
  unfold is_surrogate. apply negb_true_iff, andb_false_iff. left.
  apply Z.leb_gt. lia.
Qed.

Lemma isoformat_encodable (d : datetime) : encodable (isoformat d) = true.
Proof.
  unfold isoformat. rewrite !encodable_app, !digits_encodable.
  destruct (microsecond d =? 0).
  - vm_compute; reflexivity.
  - rewrite encodable_app, digits_encodable. vm_compute; reflexivity.
Qed.

Lemma check_labels (text : str) :
  check text = u "positive" \/ check text = u "negative" \/ check text = u "neutral".
Proof.
  rewrite check_unfold.
  destruct (neg_count text <? pos_count text)%nat;
    [|destruct (pos_count text <? neg_count text)%nat]; auto.
Qed.

Lemma check_encodable (text : str) : encodable (check text) = true.
Proof.
  destruct (check_labels text) as [-> | [-> | ->]]; vm_compute; reflexivity.
Qed.

Lemma add_review_stores (now : datetime) (text : str) (c : Connection) (t : Table) :
  visible c = Some t ->
  reachable 2 c ->
  encodable text = true ->
  largest_rowid t < MAX_ROWID ->
  ReviewService.add_review now text c
  = (Ok {| Review.text := text;
           Review.sentiment := check text;
           Review.created_at := isoformat now;
           Review.id := Some (largest_rowid t + 1) |},
     {| disk := Some (append_row t text (check text) (isoformat now));
        txn := None;
        medium := tl (tl (medium c)) |}).
Proof.
  intros Hv Hr He Hroom. unfold ReviewService.add_review; cbv zeta.
  rewrite (insert_stores _ c t Hv Hr); cbn [Review.text Review.sentiment Review.created_at];
    auto using check_encodable, isoformat_encodable.
Qed.

Lemma add_review_stored_inv (now : datetime) (text : str) (r : Review.t)
      (c c' : Connection) :
  ReviewService.add_review now text c = (Ok r, c') ->
  exists t,
    visible c = Some t /\
    reachable 2 c /\
    largest_rowid t < MAX_ROWID /\
    encodable text = true /\
    r = {| Review.text := text;
           Review.sentiment := check text;
           Review.created_at := isoformat now;
           Review.id := Some (largest_rowid t + 1) |} /\
    c' = {| disk := Some (append_row t text (check text) (isoformat now));
            txn := None;
            medium := tl (tl (medium c)) |}.
Proof.
  unfold ReviewService.add_review; cbv zeta. intros E.
  apply insert_stored_inv in E as (t & Hv & Hr & Hroom & He & -> & ->).
  exists t. repeat split; assumption.
Qed.

(** ** The service *)

Lemma pending_ok_connect (d : Database) (m : list (option fault)) :
  pending_ok (connect d m).
Proof. exact I. Qed.

(** C2: whatever calls were served, the committed rows are the rows that
    were there at the start followed by rows whose sentiment is the
    classifier's answer for their text, and so are the rows the connection
    reads; no call changes or removes a committed row; and the record a
    successful [add_review] returns, which is the row it stores, carries
    the text given and the classifier's answer for it. *)
Theorem sentiment_fixed_at_insertion
        (d : Database) (m : list (option fault)) (ks : list call) :
  let c := run ks (connect d m) in
  (exists added, stored (disk c) = stored d ++ added /\ Forall classified added) /\
  (exists added, stored (visible c) = stored d ++ added /\ Forall classified added) /\
  (forall k, exists more, stored (disk (serve k c)) = stored (disk c) ++ more) /\
  (forall now text r c',
      ReviewService.add_review now text c = (Ok r, c') ->
      Review.text r = text /\
      Review.sentiment r = check text /\
      exists i,
        Review.id r = Some i /\
        stored (disk c') =
        stored (visible c) ++ [{| row_id := i; row_text := text;
                                  row_sentiment := check text;
                                  row_created_at := isoformat now |}]).
Proof.
  intros c.
  destruct (run_steps ks (connect d m) (pending_ok_connect d m))
    as (Hok & (added & Hadded & Hcl) & _).
  fold c in Hok, Hadded. cbn [disk connect] in Hadded.
  split; [exists added; auto|]. split; [|split].
  - unfold visible. destruct (txn c) as [t|] eqn:Et.
    + unfold pending_ok in Hok. rewrite Et in Hok.
      destruct Hok as (pending & Hrows & Hp & _).
      exists (added ++ pending). cbn [stored].
      rewrite Hrows, Hadded, app_assoc. split; [reflexivity|].
      apply Forall_app; auto.
    + exists added; auto.
  - intros k. destruct (serve_step k c Hok) as (_ & (more & Hmore & _) & _).
    exists more; exact Hmore.
  - intros now text r c' E.
    apply add_review_stored_inv in E as (t & Hv & _ & _ & _ & -> & ->).
    split; [reflexivity|]. split; [reflexivity|].
    exists (largest_rowid t + 1). split; [reflexivity|].
    rewrite Hv. reflexivity.
Qed.

Lemma sentiment_fixed_at_insertion_witness :
  Review.sentiment
    (Review.set_id {| Review.text := u "хорошо"; Review.sentiment := u "positive";
                      Review.created_at := isoformat noon; Review.id := None |}
                   (Some 1))
  = check (u "хорошо").
Proof.
  refine (proj1 (proj2 (proj2 (proj2 (proj2
            (sentiment_fixed_at_insertion (Some empty_table) [] [])))
            noon (u "хорошо") _ _ _))).
  vm_compute. reflexivity.
Defined.

(** C3: the identity of a stored review is larger than every identity in
    the table, and two reviews stored one after the other, with any calls
    in between, have increasing identities; given the same text they
    differ in their identities and agree on text and sentiment. *)
Theorem identities_increase
        (d : Database) (m : list (option fault)) (before between : list call)
        (now1 now2 : datetime) (text1 text2 : str)
        (r1 r2 : Review.t) (c1 c2 : Connection) :
  let c := run before (connect d m) in
  ReviewService.add_review now1 text1 c = (Ok r1, c1) ->
  ReviewService.add_review now2 text2 (run between c1) = (Ok r2, c2) ->
  exists i1 i2,
    Review.id r1 = Some i1 /\
    Review.id r2 = Some i2 /\
    Forall (fun row => row_id row < i1) (stored (disk c)) /\
    Forall (fun row => row_id row < i1) (stored (visible c)) /\
    i1 < i2 /\
    r1 <> r2 /\
    (text1 = text2 ->
     Review.text r1 = Review.text r2 /\ Review.sentiment r1 = Review.sentiment r2).
Proof.
  intros c E1 E2.
  destruct (run_steps before (connect d m) (pending_ok_connect d m)) as (Hok & _).
  fold c in Hok.
  apply add_review_stored_inv in E1 as (t1 & Hv1 & _ & _ & _ & -> & ->).
  set (c1 := {| disk := Some (append_row t1 text1 (check text1) (isoformat now1));
                txn := None; medium := tl (tl (medium c)) |}) in *.
  assert (Hok1 : pending_ok c1) by exact I.
  destruct (run_steps between c1 Hok1) as (Hok2 & _ & Hle).
  apply add_review_stored_inv in E2 as (t2 & Hv2 & _ & _ & _ & -> & ->).
  pose proof (visible_extends _ _ Hok2 Hv2) as (_ & _ & _ & Hle2).
  pose proof (visible_extends _ _ Hok Hv1) as (pending & Hrows & _ & _).
  assert (Hlt : largest_rowid t1 + 1 < largest_rowid t2 + 1).
  { cbn [disk c1 largest] in Hle. rewrite largest_append_row in Hle. lia. }
  assert (Hvis : Forall (fun row => row_id row < largest_rowid t1 + 1) (rows t1)).
  { eapply Forall_impl; [|apply largest_rowid_bounds]. simpl; intros; lia. }
  exists (largest_rowid t1 + 1), (largest_rowid t2 + 1).
  split; [reflexivity|]. split; [reflexivity|]. split; [|split; [|split; [|split]]].
  - rewrite Hrows in Hvis. apply Forall_app in Hvis as [Hvis _]. exact Hvis.
  - rewrite Hv1. exact Hvis.
  - exact Hlt.
  - intros [= _ _ _ Heq]. lia.
  - intros ->. split; reflexivity.
Qed.

Lemma identities_increase_witness :
  exists i1 i2,
    Some 1 = Some i1 /\ Some 2 = Some i2 /\
    Forall (fun row => row_id row < i1) [] /\
    Forall (fun row => row_id row < i1) [] /\
    i1 < i2.
Proof.
  destruct (identities_increase (Some empty_table) [] [] [] noon noon
              (u "хорошо") (u "хорошо") _ _ _ _ eq_refl eq_refl)
    as (i1 & i2 & H1 & H2 & H3 & H4 & H5 & _).
  exists i1, i2. repeat split; assumption.
Defined.

Lemma of_row_to_row (r : Review.t) (i : Z) :
  Review.id r = Some i -> of_row (to_row r) = r.
Proof. destruct r as [t s d o]; cbn. intros ->. reflexivity. Qed.







Lemma filter_of_row (label : str) (rs : list Row) :
  map of_row (filter (fun r => str_eqb (row_sentiment r) label) rs)
  = filter (fun r => str_eqb (Review.sentiment r) label) (map of_row rs).
Proof.
  induction rs as [|r rs IH]; cbn; [reflexivity|].
  destruct (str_eqb (row_sentiment r) label); cbn; rewrite IH; reflexivity.
Qed.

Lemma filter_none {A} (f : A -> bool) (xs : list A) :
  Forall (fun x => f x = false) xs -> filter f xs = [].
Proof. induction 1 as [|x xs Hx _ IH]; cbn; [|rewrite Hx]; auto. Qed.


(** X16: on a working connection and for a label without surrogate code
    points, [fetch_by_sentiment] returns the reviews of [fetch_all] whose
    sentiment is the label, in the same order; the result is empty when no
    stored sentiment is the label. *)
Theorem fetch_by_sentiment_filters
        (label : str) (c : Connection) (t : Table) :
  visible c = Some t ->
  reachable 1 c ->
  encodable label = true ->
  exists all,
    ReviewRepository.fetch_all c = (Ok all, advance c) /\
    ReviewRepository.fetch_by_sentiment label c
    = (Ok (filter (fun r => str_eqb (Review.sentiment r) label) all), advance c) /\
    (forall r, In r (filter (fun r => str_eqb (Review.sentiment r) label) all)
               <-> In r all /\ Review.sentiment r = label) /\
    (Forall (fun r => Review.sentiment r <> label) all ->
     ReviewRepository.fetch_by_sentiment label c = (Ok [], advance c)).
Proof.
  intros Hv Hr He. apply reachable_1 in Hr.
  exists (map of_row (rows t)).
  pose proof (fetch_by_sentiment_works label c t Hr Hv He) as Hf.
  rewrite filter_of_row in Hf.
  split; [apply fetch_all_works; assumption|]. split; [exact Hf|]. split.
  - intros r. rewrite filter_In, str_eqb_eq. reflexivity.
  - intros Hnone. rewrite Hf, filter_none; [reflexivity|].
    eapply Forall_impl; [|exact Hnone]. intros r. apply str_eqb_neq.
Qed.

Lemma fetch_by_sentiment_filters_witness :
  (exists all,
      ReviewRepository.fetch_all stocked = (Ok all, advance stocked) /\
      ReviewRepository.fetch_by_sentiment (u "positive") stocked
      = (Ok (filter (fun r => str_eqb (Review.sentiment r) (u "positive")) all),
         advance stocked)) /\
  fst (ReviewRepository.fetch_all stocked)
  = Ok [ {| Review.text := u "хорошо"; Review.sentiment := u "positive";
            Review.created_at := isoformat noon; Review.id := Some 1 |};
         {| Review.text := u "плохо"; Review.sentiment := u "negative";
            Review.created_at := isoformat noon; Review.id := Some 2 |};
         {| Review.text := u "люблю"; Review.sentiment := u "positive";
            Review.created_at := isoformat noon; Review.id := Some 3 |} ] /\
  fst (ReviewRepository.fetch_by_sentiment (u "positive") stocked)
  = Ok [ {| Review.text := u "хорошо"; Review.sentiment := u "positive";
            Review.created_at := isoformat noon; Review.id := Some 1 |};
         {| Review.text := u "люблю"; Review.sentiment := u "positive";
            Review.created_at := isoformat noon; Review.id := Some 3 |} ].
Proof.
  assert (H1 : visible stocked = Some (match disk stocked with
                                       | Some t => t
                                       | None => empty_table
                                       end))
    by (vm_compute; reflexivity).
  assert (H2 : reachable 1 stocked) by (vm_compute; constructor).
  assert (H3 : encodable (u "positive") = true) by (vm_compute; reflexivity).
  split; [|split; vm_compute; reflexivity].
  destruct (fetch_by_sentiment_filters (u "positive") stocked _ H1 H2 H3)
    as (all & Ha & Hf & _).
  exists all. split; [exact Ha | exact Hf].
Defined.

(** C6: with the empty filter [get_reviews_by_sentiment] is [fetch_all];
    with any other filter it is [fetch_by_sentiment] of that filter,
    whether or not the filter is one of the three labels; on a working
    connection every filter without surrogate code points is answered
    with a list. *)
Theorem get_reviews_by_sentiment_dispatch (c : Connection) :
  ReviewService.get_reviews_by_sentiment [] c = ReviewRepository.fetch_all c /\
  (forall filter,
      filter <> [] ->
      ReviewService.get_reviews_by_sentiment filter c
      = ReviewRepository.fetch_by_sentiment filter c) /\
  (forall filter t,
      visible c = Some t ->
      reachable 1 c ->
      encodable filter = true ->
      exists reviews,
        ReviewService.get_reviews_by_sentiment filter c = (Ok reviews, advance c)).
Proof.
  split; [reflexivity|]. split.
  - intros [|x s] H; [contradiction | reflexivity].
  - intros filter t Hv Hr He. apply reachable_1 in Hr.
    destruct filter as [|x s]; cbn [ReviewService.get_reviews_by_sentiment].
    + eexists. apply fetch_all_works; eassumption.
    + eexists. apply fetch_by_sentiment_works; eassumption.
Qed.

Lemma get_reviews_by_sentiment_dispatch_witness :
  ReviewService.get_reviews_by_sentiment (u "unknown") (connect (Some empty_table) [])
  = ReviewRepository.fetch_by_sentiment (u "unknown") (connect (Some empty_table) []).
Proof.
  apply (proj1 (proj2 (get_reviews_by_sentiment_dispatch (connect (Some empty_table) [])))).
  vm_compute. discriminate.
Defined.




(** C10: on a working connection to a table that is not full,
    [add_review] of the empty text raises nothing: it stores and returns a
    review whose text is empty and whose sentiment is [neutral]. *)
Theorem add_review_empty_text (now : datetime) (c : Connection) (t : Table) :
  visible c = Some t ->
  reachable 2 c ->
  largest_rowid t < MAX_ROWID ->
  ReviewService.add_review now [] c
  = (Ok {| Review.text := [];
           Review.sentiment := u "neutral";
           Review.created_at := isoformat now;
           Review.id := Some (largest_rowid t + 1) |},
     {| disk := Some (append_row t [] (u "neutral") (isoformat now));
        txn := None;
        medium := tl (tl (medium c)) |}).
Proof.
  intros Hv Hr Hroom.
  rewrite (add_review_stores now [] c t Hv Hr eq_refl Hroom).
  replace (check []) with (u "neutral") by (vm_compute; reflexivity).
  reflexivity.
Qed.

Lemma add_review_empty_text_witness :
  ReviewService.add_review noon [] (connect (Some empty_table) [])
  = (Ok {| Review.text := [];
           Review.sentiment := u "neutral";
           Review.created_at := isoformat noon;
           Review.id := Some (largest_rowid empty_table + 1) |},
     {| disk := Some (append_row empty_table [] (u "neutral") (isoformat noon));
        txn := None;
        medium := tl (tl (medium (connect (Some empty_table) []))) |}).
Proof.
  apply (add_review_empty_text noon (connect (Some empty_table) []) empty_table).
  - reflexivity.
  - vm_compute. constructor.
  - vm_compute. reflexivity.
Defined.

(** * Further properties *)

(** ** The classifier and the case of letters *)

Lemma in_range_list (lo c : Z) (n : nat) :
  lo <= c < lo + Z.of_nat n ->
  In c (map (fun k => lo + Z.of_nat k) (seq 0 n)).
Proof.
  intros H. apply in_map_iff. exists (Z.to_nat (c - lo)). split; [lia|].
  apply in_seq. lia.
Qed.

Lemma same_case_data_range (lo : Z) (n : nat) (c : Z) :
  forallb same_case_data (map (fun k => lo + Z.of_nat k) (seq 0 n)) = true ->
  lo <= c < lo + Z.of_nat n ->
  same_case_data c = true.
Proof.
  intros Hall Hc. rewrite forallb_forall in Hall.
  apply Hall, in_range_list, Hc.
Qed.

Lemma small_same_case_data (c : Z) : same_case_data c = true.
Proof.
  destruct (Z_le_gt_dec 0x41 c) as [H1|H1];
    [destruct (Z_le_gt_dec c 0x5A) as [H2|H2]|].
  - apply (same_case_data_range 0x41 26); [vm_compute; reflexivity | lia].
  - destruct (Z_le_gt_dec 0x400 c) as [H3|H3];
      [destruct (Z_le_gt_dec c 0x42F) as [H4|H4]|].
    + apply (same_case_data_range 0x400 48); [vm_compute; reflexivity | lia].
    + unfold same_case_data, small.
      replace ((0x41 <=? c) && (c <=? 0x5A)) with false by (symmetry; apply andb_false_iff; right; apply Z.leb_gt; lia).
      replace ((0x410 <=? c) && (c <=? 0x42F)) with false by (symmetry; apply andb_false_iff; right; apply Z.leb_gt; lia).
      replace ((0x400 <=? c) && (c <=? 0x40F)) with false by (symmetry; apply andb_false_iff; right; apply Z.leb_gt; lia).
      rewrite str_eqb_refl, !eqb_reflx. reflexivity.
    + unfold same_case_data, small.
      replace ((0x41 <=? c) && (c <=? 0x5A)) with false by (symmetry; apply andb_false_iff; right; apply Z.leb_gt; lia).
      replace ((0x410 <=? c) && (c <=? 0x42F)) with false by (symmetry; apply andb_false_iff; left; apply Z.leb_gt; lia).
      replace ((0x400 <=? c) && (c <=? 0x40F)) with false by (symmetry; apply andb_false_iff; left; apply Z.leb_gt; lia).
      rewrite str_eqb_refl, !eqb_reflx. reflexivity.
  - unfold same_case_data, small.
    replace ((0x41 <=? c) && (c <=? 0x5A)) with false by (symmetry; apply andb_false_iff; left; apply Z.leb_gt; lia).
    replace ((0x410 <=? c) && (c <=? 0x42F)) with false by (symmetry; apply andb_false_iff; left; apply Z.leb_gt; lia).
    replace ((0x400 <=? c) && (c <=? 0x40F)) with false by (symmetry; apply andb_false_iff; left; apply Z.leb_gt; lia).
    rewrite str_eqb_refl, !eqb_reflx. reflexivity.
Qed.

Lemma small_case_data (c : Z) :
  to_lower_full (small c) = to_lower_full c /\
  is_cased (small c) = is_cased c /\
  is_case_ignorable (small c) = is_case_ignorable c /\
  (small c =? 0x3A3) = (c =? 0x3A3).
Proof.
  pose proof (small_same_case_data c) as H. unfold same_case_data in H.
  rewrite !andb_true_iff, str_eqb_eq, !eqb_true_iff in H. tauto.
Qed.

Lemma skip_case_ignorable_small (s : str) :
  match skip_case_ignorable (map small s) with
  | Some c => is_cased c
  | None => false
  end
  = match skip_case_ignorable s with
    | Some c => is_cased c
    | None => false
    end.
Proof.
  induction s as [|c s IH]; [reflexivity|]. cbn [map skip_case_ignorable].
  destruct (small_case_data c) as (_ & Hc & Hi & _). rewrite Hi.
  destruct (is_case_ignorable c); [exact IH | exact Hc].
Qed.

Lemma lower_ucs4_small (before : str) (c : Z) (after : str) :
  lower_ucs4 (map small before) (small c) (map small after)
  = lower_ucs4 before c after.
Proof.
  unfold lower_ucs4, handle_capital_sigma.
  destruct (small_case_data c) as (Hl & _ & _ & Hs).
  rewrite Hs, Hl, !skip_case_ignorable_small. reflexivity.
Qed.

Lemma do_lower_small (s before : str) :
  do_lower (map small before) (map small s) = do_lower before s.
Proof.
  revert before; induction s as [|c s IH]; intros before; [reflexivity|].
  cbn [map do_lower]. rewrite lower_ucs4_small. f_equal.
  exact (IH (c :: before)).
Qed.

(** *** The lowercase form holds no capital *)

Lemma small_outside (x : Z) :
  ~ 0x41 <= x <= 0x5A -> ~ 0x400 <= x <= 0x42F -> small x = x.
Proof.
  intros H1 H2. unfold small.
  destruct (Z.leb_spec 0x41 x), (Z.leb_spec x 0x5A); cbn [andb]; try lia;
    destruct (Z.leb_spec 0x410 x), (Z.leb_spec x 0x42F); cbn [andb]; try lia;
    destruct (Z.leb_spec 0x400 x), (Z.leb_spec x 0x40F); cbn [andb]; try lia;
    reflexivity.
Qed.

Lemma forallb_range (f : Z -> bool) (lo : Z) (n : nat) (c : Z) :
  forallb f (map (fun k => lo + Z.of_nat k) (seq 0 n)) = true ->
  lo <= c < lo + Z.of_nat n ->
  f c = true.
Proof.
  intros Hall Hc. rewrite forallb_forall in Hall.
  apply Hall, in_range_list, Hc.
Qed.

Lemma to_lower_full_fixed (c : Z) : Forall (fun x => small x = x) (to_lower_full c).
Proof.
  assert (Hb : forall c,
             forallb (fun x => small x =? x) (to_lower_full c) = true ->
             Forall (fun x => small x = x) (to_lower_full c)).
  { intros c0 H. rewrite forallb_forall in H. apply Forall_forall.
    intros x Hx. apply Z.eqb_eq, H, Hx. }
  destruct (Z_le_gt_dec 0x41 c) as [H1|H1];
    [destruct (Z_le_gt_dec c 0x5A) as [H2|H2]|].
  { apply Hb.
    apply (forallb_range (fun c => forallb (fun x => small x =? x) (to_lower_full c))
                         0x41 26); [vm_compute; reflexivity | lia]. }
  all: destruct (Z_le_gt_dec 0x400 c) as [H3|H3];
    [destruct (Z_le_gt_dec c 0x42F) as [H4|H4]|].
  all: try (apply Hb;
            apply (forallb_range (fun c => forallb (fun x => small x =? x) (to_lower_full c))
                                 0x400 48); [vm_compute; reflexivity | lia]).
  all: unfold to_lower_full;
    (destruct (c =? 0x130);
     [repeat constructor|]);
    (destruct (find (lower_entry c) lower_table) as [[[[lo hi] stride] delta]|] eqn:F;
     [|constructor; [apply small_outside; lia | constructor]]).
  all: apply find_some in F as [Hin He];
    assert (Hok : entry_image_small (lo, hi, stride, delta) = true)
      by (assert (Hall : forallb entry_image_small lower_table = true)
            by (vm_compute; reflexivity);
          rewrite forallb_forall in Hall; apply Hall; exact Hin);
    unfold lower_entry in He; unfold entry_image_small in Hok;
    rewrite !andb_true_iff, !orb_true_iff, !Z.leb_le, ?Z.ltb_lt in *;
    constructor; [apply small_outside; lia | constructor].
Qed.

Lemma lower_ucs4_fixed (before : str) (c : Z) (after : str) :
  Forall (fun x => small x = x) (lower_ucs4 before c after).
Proof.
  unfold lower_ucs4. destruct (c =? 0x3A3); [|apply to_lower_full_fixed].
  unfold handle_capital_sigma.
  match goal with |- Forall _ [if ?b then _ else _] => destruct b end;
    repeat constructor.
Qed.

Lemma do_lower_fixed (s before : str) :
  Forall (fun x => small x = x) (do_lower before s).
Proof.
  revert before; induction s as [|c s IH]; intros before; [constructor|].
  cbn [do_lower]. apply Forall_app. split; [apply lower_ucs4_fixed | apply IH].
Qed.

Lemma lower_ucs4_latin_or_russian (before : str) (c : Z) (after : str) :
  latin_or_russian c = true -> lower_ucs4 before c after = [small c].
Proof.
  intros H.
  assert (Hc : forall c, latin_or_russian c = true ->
                         (negb (c =? 0x3A3) && str_eqb (to_lower_full c) [small c]) = true).
  { clear. intros c H. unfold latin_or_russian in H.
    rewrite orb_true_iff, !andb_true_iff, !Z.leb_le, Z.ltb_lt in H.
    destruct H as [H|H].
    - apply (forallb_range
               (fun c => negb (c =? 0x3A3) && str_eqb (to_lower_full c) [small c])
               0 128); [vm_compute; reflexivity | lia].
    - apply (forallb_range
               (fun c => negb (c =? 0x3A3) && str_eqb (to_lower_full c) [small c])
               0x400 96); [vm_compute; reflexivity | lia]. }
  apply Hc in H. rewrite andb_true_iff, negb_true_iff, str_eqb_eq in H.
  destruct H as [Hs Hl]. unfold lower_ucs4. rewrite Hs. exact Hl.
Qed.

Lemma do_lower_latin_or_russian (s before : str) :
  forallb latin_or_russian s = true -> do_lower before s = map small s.
Proof.
  revert before; induction s as [|c s IH]; intros before H; [reflexivity|].
  cbn [forallb] in H. apply andb_true_iff in H as [Hc Hs].
  cbn [do_lower map]. rewrite (lower_ucs4_latin_or_russian _ _ _ Hc), IH by exact Hs.
  reflexivity.
Qed.

(** C1: [check] lowercases the text and counts in the lowercase form.  This
    form is the same whether Latin and Russian capitals are written small
    or not, it holds none of these capitals, and for a text in these two
    alphabets it is the text with every capital written small.  [check]
    totals the non-overlapping occurrences of the positive markers and of
    the negative markers in it, and answers [positive] when the positive
    total is larger, [negative] when the negative total is larger and
    [neutral] when the totals are equal. *)
Theorem check_counts_markers (text : str) :
  lower (map small text) = lower text /\
  Forall (fun c => small c = c) (lower text) /\
  (forallb latin_or_russian text = true -> lower text = map small text) /\
  exists posCount negCount : nat,
    marker_total POSITIVE (lower text) posCount /\
    marker_total NEGATIVE (lower text) negCount /\
    (forall p n,
        marker_total POSITIVE (lower text) p ->
        marker_total NEGATIVE (lower text) n ->
        p = posCount /\ n = negCount) /\
    ((negCount < posCount)%nat -> check text = u "positive") /\
    ((posCount < negCount)%nat -> check text = u "negative") /\
    (posCount = negCount -> check text = u "neutral").
Proof.
  split; [exact (do_lower_small text [])|].
  split; [exact (do_lower_fixed text [])|].
  split; [exact (do_lower_latin_or_russian text [])|].
  pose proof markers_not_empty as Hne. apply Forall_app in Hne as [Hpos Hneg].
  exists (pos_count text), (neg_count text).
  assert (HP := marker_total_count POSITIVE (lower text) Hpos).
  assert (HN := marker_total_count NEGATIVE (lower text) Hneg).
  split; [exact HP|]. split; [exact HN|]. split; [|split; [|split]].
  - intros p n Hp Hn. split.
    + exact (marker_total_unique _ _ _ _ Hp HP).
    + exact (marker_total_unique _ _ _ _ Hn HN).
  - intros H. rewrite check_unfold.
    destruct (Nat.ltb_spec (neg_count text) (pos_count text)); [reflexivity | lia].
  - intros H. rewrite check_unfold.
    destruct (Nat.ltb_spec (neg_count text) (pos_count text)); [lia|].
    destruct (Nat.ltb_spec (pos_count text) (neg_count text)); [reflexivity | lia].
  - intros H. rewrite check_unfold.
    destruct (Nat.ltb_spec (neg_count text) (pos_count text)); [lia|].
    destruct (Nat.ltb_spec (pos_count text) (neg_count text)); [lia | reflexivity].
Qed.

Lemma check_counts_markers_witness :
  lower (u "ХОРОШИЙ день, I LOVE it") = map small (u "ХОРОШИЙ день, I LOVE it").
Proof.
  apply (proj1 (proj2 (proj2 (check_counts_markers (u "ХОРОШИЙ день, I LOVE it"))))).
  vm_compute. reflexivity.
Defined.

(** X1: writing Latin or Russian capitals as small letters, anywhere in
    the text, changes neither the lowercase form of the text nor its
    label. *)
Theorem check_ignores_capitals (text : str) :
  lower (map small text) = lower text /\
  check (map small text) = check text.
Proof.
  assert (H : lower (map small text) = lower text) by exact (do_lower_small text []).
  split; [exact H|]. unfold check. rewrite H. reflexivity.
Qed.

(** ** Markers inside words *)

Lemma count_present (s sub : str) :
  sub <> [] -> contains s sub = true -> (1 <= count s sub)%nat.
Proof.
  intros Hne Hc. unfold contains in Hc.
  apply existsb_exists in Hc as (i & _ & Hi).
  apply startswith_occurs in Hi.
  assert (Ho : occurs_at sub s i).
  { unfold occurs_at in *. cbn [skipn] in Hi. exact Hi. }
  rewrite count_nonempty by exact Hne.
  apply (count_scan_bounds sub Hne s 0 [i]).
  cbn. repeat split; [lia | exact Ho].
Qed.

Lemma sum_cons (x : nat) (xs : list nat) : sum (x :: xs) = (x + sum xs)%nat.
Proof. rewrite !sum_list_sum. reflexivity. Qed.

Lemma sum_count_present (markers : list str) (s : str) :
  Forall (fun m => m <> []) markers ->
  existsb (fun m => contains s m) markers = true ->
  (1 <= sum (map (fun m => count s m) markers))%nat.
Proof.
  intros Hne Hex.
  induction Hne as [|m ms Hm _ IH]; [discriminate|].
  cbn [existsb map] in Hex |- *. rewrite sum_cons.
  apply orb_true_iff in Hex as [Hc|Hc].
  - pose proof (count_present s m Hm Hc). lia.
  - specialize (IH Hc). lia.
Qed.

(** X2: a text in which a positive marker occurs, be it inside a longer
    word and in whatever case, and in which no negative marker occurs, is
    [positive]; with the two kinds of markers exchanged it is
    [negative]. *)
Theorem one_sided_text (text : str) :
  (existsb (fun m => contains (lower text) m) POSITIVE = true ->
   forallb (fun m => negb (contains (lower text) m)) NEGATIVE = true ->
   check text = u "positive") /\
  (existsb (fun m => contains (lower text) m) NEGATIVE = true ->
   forallb (fun m => negb (contains (lower text) m)) POSITIVE = true ->
   check text = u "negative").
Proof.
  pose proof markers_not_empty as Hne. apply Forall_app in Hne as [Hpos Hneg].
  split; intros Hsome Hnone; rewrite check_unfold; unfold pos_count, neg_count.
  - pose proof (sum_count_present _ _ Hpos Hsome) as H1.
    rewrite (sum_count_absent _ _ Hneg Hnone) in *.
    destruct (Nat.ltb_spec 0 (sum (map (fun p => count (lower text) p) POSITIVE)));
      [reflexivity | lia].
  - pose proof (sum_count_present _ _ Hneg Hsome) as H1.
    rewrite (sum_count_absent _ _ Hpos Hnone) in *.
    destruct (Nat.ltb_spec (sum (map (fun n => count (lower text) n) NEGATIVE)) 0);
      [lia|].
    destruct (Nat.ltb_spec 0 (sum (map (fun n => count (lower text) n) NEGATIVE)));
      [reflexivity | lia].
Qed.

Lemma one_sided_text_witness :
  check (u "ХОРОШИСТ") = u "positive" /\ check (u "я НЕНАВИЖУ дождь") = u "negative".
Proof.
  split.
  - apply (proj1 (one_sided_text (u "ХОРОШИСТ"))); vm_compute; reflexivity.
  - apply (proj2 (one_sided_text (u "я НЕНАВИЖУ дождь"))); vm_compute; reflexivity.
Defined.

(** ** Tables reached from the empty table *)

Lemma tidy_empty (P : str -> str -> Prop) : tidy P empty_table.
Proof. repeat split; constructor. Qed.

Lemma tidy_append_row (P : str -> str -> Prop) (t : Table) (text sentiment created : str) :
  tidy P t -> P text sentiment -> tidy P (append_row t text sentiment created).
Proof.
  intros (Hids & Hlargest & HP) Hrow. unfold tidy.
  rewrite largest_append_row. unfold append_row; cbn [rows].
  rewrite length_app, map_app, Hids, Hlargest. cbn [length map row_id].
  rewrite Nat.add_1_r, seq_S, map_app. cbn [map].
  repeat split.
  - do 2 f_equal. lia.
  - lia.
  - apply Forall_app; split; [exact HP|]. constructor; [exact Hrow | constructor].
Qed.

Lemma tidy_visible (P : str -> str -> Prop) (c : Connection) (t : Table) :
  tidy_connection P c -> visible c = Some t -> tidy P t.
Proof.
  intros [(t0 & Hd & Ht0) Htxn] Hv.
  destruct (visible_cases c t Hv) as [E|[E1 E2]].
  - rewrite E in Htxn; exact Htxn.
  - assert (t0 = t) by congruence; subst; exact Ht0.
Qed.

Lemma tidy_connection_table (P : str -> str -> Prop) (c : Connection) :
  tidy_connection P c -> exists t, visible c = Some t /\ tidy P t.
Proof.
  intros [(t0 & Hd & Ht0) Htxn]. unfold visible.
  destruct (txn c) as [t|]; [exists t | exists t0]; auto.
Qed.

Lemma insert_tidy (P : str -> str -> Prop) (review : Review.t) (c : Connection) :
  P (Review.text review) (Review.sentiment review) ->
  tidy_connection P c ->
  tidy_connection P (snd (ReviewRepository.insert review c)).
Proof.
  intros Hrow Hc. pose proof Hc as [Hdisk Htxn].
  pose proof (insert_cases review c) as H.
  destruct (ReviewRepository.insert review c) as [r c'] eqn:E. cbn [snd].
  inversion H; subst; unfold tidy_connection; cbn [disk txn advance].
  - split; [exact Hdisk|]. destruct (txn_survives f); [exact Htxn | exact I].
  - split; assumption.
  - split; [exact Hdisk | eapply tidy_visible; eassumption].
  - split; [exact Hdisk | exact I].
  - split; [exact Hdisk|]. destruct (txn_survives f); [|exact I].
    apply tidy_append_row; [eapply tidy_visible; eassumption | exact Hrow].
  - split; [|exact I]. eexists; split; [reflexivity|].
    apply tidy_append_row; [eapply tidy_visible; eassumption | exact Hrow].
Qed.

Lemma get_reviews_by_sentiment_tidy (P : str -> str -> Prop) (sentiment : str)
      (c : Connection) :
  tidy_connection P c ->
  tidy_connection P (snd (ReviewService.get_reviews_by_sentiment sentiment c)).
Proof.
  intros [Hdisk Htxn]. destruct (fetch_state sentiment c) as [Hd Ht].
  unfold tidy_connection. rewrite Hd. split; [exact Hdisk|].
  destruct Ht as [-> | ->]; [exact Htxn | exact I].
Qed.

Lemma close_connection_tidy (P : str -> str -> Prop) (c : Connection) :
  tidy_connection P c -> tidy_connection P (close_connection c).
Proof. intros [Hdisk _]. split; [exact Hdisk | exact I]. Qed.

Lemma run_tidy (ks : list call) (c : Connection) :
  tidy_connection labelled c -> tidy_connection labelled (run ks c).
Proof.
  revert c; induction ks as [|k ks IH]; intros c Hc; [exact Hc|].
  change (run (k :: ks) c) with (run ks (serve k c)). apply IH.
  destruct k as [now text|sentiment|]; cbn [serve].
  - apply insert_tidy; [reflexivity | exact Hc].
  - apply get_reviews_by_sentiment_tidy; exact Hc.
  - apply close_connection_tidy; exact Hc.
Qed.

Lemma tidy_connect_empty (P : str -> str -> Prop) (m : list (option fault)) :
  tidy_connection P (connect (Some empty_table) m).
Proof. split; [exists empty_table; split; [reflexivity | apply tidy_empty] | exact I]. Qed.

Lemma tidy_ids (P : str -> str -> Prop) (t : Table) :
  tidy P t ->
  map Review.id (map of_row (rows t))
  = map (fun i => Some (Z.of_nat i)) (seq 1 (length (map of_row (rows t)))).
Proof.
  intros (Hids & _). rewrite length_map, map_map.
  change (fun r => Review.id (of_row r)) with (fun r => Some (row_id r)).
  rewrite <- (map_map row_id Some), Hids, map_map. reflexivity.
Qed.

(** X3: starting from the empty table, whatever calls were served and
    whatever failed on the way, a [fetch_all] that reaches the file returns
    reviews numbered 1, 2, ... in this order, each with the sentiment the
    classifier gives its text. *)
Theorem fetch_all_numbered
        (m : list (option fault)) (ks : list call) :
  let c := run ks (connect (Some empty_table) m) in
  reachable 1 c ->
  exists reviews,
    ReviewRepository.fetch_all c = (Ok reviews, advance c) /\
    map Review.id reviews
    = map (fun i => Some (Z.of_nat i)) (seq 1 (length reviews)) /\
    Forall (fun r => Review.sentiment r = check (Review.text r)) reviews.
Proof.
  intros c Hr. apply reachable_1 in Hr.
  pose proof (run_tidy ks _ (tidy_connect_empty labelled m)) as Hc. fold c in Hc.
  destruct (tidy_connection_table _ _ Hc) as (t & Hv & Ht).
  exists (map of_row (rows t)). split; [apply fetch_all_works; assumption|].
  split; [eapply tidy_ids; exact Ht|].
  destruct Ht as (_ & _ & HP). apply Forall_map.
  eapply Forall_impl; [|exact HP]. intros r Hrow. exact Hrow.
Qed.

Lemma fetch_all_numbered_witness :
  exists reviews,
    ReviewRepository.fetch_all
      (run [Add noon (u "хорошо"); Get []; Teardown; Add noon (u "плохо")]
           (connect (Some empty_table)
                    [None; Some {| rc := 5; txn_survives := true |}]))
    = (Ok reviews,
       advance (run [Add noon (u "хорошо"); Get []; Teardown; Add noon (u "плохо")]
                    (connect (Some empty_table)
                             [None; Some {| rc := 5; txn_survives := true |}]))) /\
    map Review.id reviews
    = map (fun i => Some (Z.of_nat i)) (seq 1 (length reviews)).
Proof.
  assert (Hr : reachable 1
                 (run [Add noon (u "хорошо"); Get []; Teardown; Add noon (u "плохо")]
                      (connect (Some empty_table)
                               [None; Some {| rc := 5; txn_survives := true |}])))
    by (vm_compute; constructor).
  destruct (fetch_all_numbered
              [None; Some {| rc := 5; txn_survives := true |}]
              [Add noon (u "хорошо"); Get []; Teardown; Add noon (u "плохо")] Hr)
    as (reviews & Hf & Hids & _).
  exists reviews. split; [exact Hf | exact Hids].
Defined.

(** ** Queries *)

(** What [get_reviews_by_sentiment] does, case by case. *)
Lemma get_reviews_by_sentiment_cases (sentiment : str) (c : Connection) :
  ReviewService.get_reviews_by_sentiment sentiment c
  = match medium c with
    | Some f :: later =>
        (Raise (sqlite3_Error (rc f)),
         {| disk := disk c;
            txn := if txn_survives f then txn c else None;
            medium := later |})
    | _ =>
        match visible c with
        | None => (Raise (sqlite3_Error SQLITE_ERROR), advance c)
        | Some t =>
            match sentiment with
            | [] => (Ok (map of_row (rows t)), advance c)
            | _ :: _ =>
                if encodable sentiment
                then (Ok (filter (fun r => str_eqb (Review.sentiment r) sentiment)
                                 (map of_row (rows t))),
                      advance c)
                else (Raise UnicodeEncodeError, advance c)
            end
        end
    end.
Proof.
  destruct (access_cases c) as [[Hm Ha]|(f & later & Hm & Ha)].
  - replace (match medium c with
             | Some f :: later =>
                 (Raise (sqlite3_Error (rc f)),
                  {| disk := disk c;
                     txn := if txn_survives f then txn c else None;
                     medium := later |})
             | _ =>
                 match visible c with
                 | None => (Raise (sqlite3_Error SQLITE_ERROR), advance c)
                 | Some t =>
                     match sentiment with
                     | [] => (Ok (map of_row (rows t)), advance c)
                     | _ :: _ =>
                         if encodable sentiment
                         then (Ok (filter (fun r => str_eqb (Review.sentiment r) sentiment)
                                          (map of_row (rows t))),
                               advance c)
                         else (Raise UnicodeEncodeError, advance c)
                     end
                 end
             end)
      with (match visible c with
            | None => (Raise (sqlite3_Error SQLITE_ERROR), advance c)
            | Some t =>
                match sentiment with
                | [] => (Ok (map of_row (rows t)), advance c)
                | _ :: _ =>
                    if encodable sentiment
                    then (Ok (filter (fun r => str_eqb (Review.sentiment r) sentiment)
                                     (map of_row (rows t))),
                          advance c)
                    else (Raise UnicodeEncodeError, advance c)
                end
            end)
      by (destruct (medium c) as [|[f|] later];
          [reflexivity | discriminate | reflexivity]).
    destruct (visible c) as [t|] eqn:Ev.
    + destruct sentiment as [|x s]; cbn [ReviewService.get_reviews_by_sentiment].
      * apply fetch_all_works; assumption.
      * destruct (encodable (x :: s)) eqn:Ee.
        -- rewrite (fetch_by_sentiment_works _ c t Hm Ev Ee), filter_of_row. reflexivity.
        -- apply (fetch_by_sentiment_not_encodable _ c t Hm Ev Ee).
    + assert (Hp : prepare (advance c) = (Raise (sqlite3_Error SQLITE_ERROR), advance c)).
      { unfold prepare. change (visible (advance c)) with (visible c).
        rewrite Ev. reflexivity. }
      destruct sentiment as [|x s]; cbn [ReviewService.get_reviews_by_sentiment];
        unfold ReviewRepository.fetch_all, ReviewRepository.fetch_by_sentiment,
        execute_select;
        apply bind_raise; erewrite bind_ok by exact Ha; apply bind_raise; exact Hp.
  - rewrite Hm.
    destruct sentiment as [|x s]; cbn [ReviewService.get_reviews_by_sentiment];
      unfold ReviewRepository.fetch_all, ReviewRepository.fetch_by_sentiment,
      execute_select;
      apply bind_raise, bind_raise; exact Ha.
Qed.

Lemma get_reviews_by_sentiment_inv (sentiment : str) (c c' : Connection)
      (reviews : list Review.t) :
  ReviewService.get_reviews_by_sentiment sentiment c = (Ok reviews, c') ->
  c' = advance c /\ hd None (medium c) = None /\
  exists t,
    visible c = Some t /\
    reviews = match sentiment with
              | [] => map of_row (rows t)
              | _ :: _ => filter (fun r => str_eqb (Review.sentiment r) sentiment)
                                 (map of_row (rows t))
              end /\
    (sentiment = [] \/ encodable sentiment = true).
Proof.
  rewrite get_reviews_by_sentiment_cases.
  destruct (medium c) as [|[f|] later] eqn:Em; [|discriminate|];
    (destruct (visible c) as [t|]; [|discriminate]);
    (destruct sentiment as [|x s];
     [intros [= <- <-]; split; [reflexivity|]; split; [reflexivity|];
      exists t; auto
     |destruct (encodable (x :: s)) eqn:Ee; [|discriminate];
      intros [= <- <-]; split; [reflexivity|]; split; [reflexivity|];
      exists t; auto]).
Qed.

(** X4: a query that was answered is answered the same when it is asked
    again of the connection it left, as long as the file can be reached:
    queries do not change what they read. *)
Theorem get_reviews_by_sentiment_repeatable
        (sentiment : str) (c c' : Connection) (reviews : list Review.t) :
  ReviewService.get_reviews_by_sentiment sentiment c = (Ok reviews, c') ->
  reachable 1 c' ->
  ReviewService.get_reviews_by_sentiment sentiment c' = (Ok reviews, advance c') /\
  disk c' = disk c /\ txn c' = txn c.
Proof.
  intros E Hr. apply reachable_1 in Hr.
  apply get_reviews_by_sentiment_inv in E as (-> & _ & t & Hv & -> & He).
  split; [|split; reflexivity].
  rewrite get_reviews_by_sentiment_cases.
  change (visible (advance c)) with (visible c). rewrite Hv.
  destruct (medium (advance c)) as [|[f|] later]; [|discriminate|];
    (destruct sentiment as [|x s]; [reflexivity|];
     destruct He as [He|He]; [discriminate | rewrite He; reflexivity]).
Qed.

Lemma get_reviews_by_sentiment_repeatable_witness :
  ReviewService.get_reviews_by_sentiment (u "positive")
    (snd (ReviewService.get_reviews_by_sentiment (u "positive")
            (snd (ReviewService.add_review noon (u "хорошо")
                    (connect (Some empty_table) [])))))
  = (Ok [ {| Review.text := u "хорошо"; Review.sentiment := check (u "хорошо");
             Review.created_at := isoformat noon; Review.id := Some 1 |} ],
     advance (snd (ReviewService.get_reviews_by_sentiment (u "positive")
                     (snd (ReviewService.add_review noon (u "хорошо")
                             (connect (Some empty_table) [])))))).
Proof.
  assert (H1 : ReviewService.get_reviews_by_sentiment (u "positive")
                 (snd (ReviewService.add_review noon (u "хорошо")
                         (connect (Some empty_table) [])))
               = (Ok [ {| Review.text := u "хорошо";
                          Review.sentiment := check (u "хорошо");
                          Review.created_at := isoformat noon;
                          Review.id := Some 1 |} ],
                  snd (ReviewService.get_reviews_by_sentiment (u "positive")
                         (snd (ReviewService.add_review noon (u "хорошо")
                                 (connect (Some empty_table) []))))))
    by (vm_compute; reflexivity).
  assert (H2 : reachable 1
                 (snd (ReviewService.get_reviews_by_sentiment (u "positive")
                         (snd (ReviewService.add_review noon (u "хорошо")
                                 (connect (Some empty_table) []))))))
    by (vm_compute; constructor).
  exact (proj1 (get_reviews_by_sentiment_repeatable _ _ _ _ H1 H2)).
Defined.

Lemma filter_three_way {A} (f g h : A -> bool) (xs : list A) :
  Forall (fun x => (f x = true /\ g x = false /\ h x = false) \/
                   (f x = false /\ g x = true /\ h x = false) \/
                   (f x = false /\ g x = false /\ h x = true)) xs ->
  Permutation xs (filter f xs ++ filter g xs ++ filter h xs).
Proof.
  induction 1 as [|x xs Hx _ IH]; [constructor|]. cbn [filter].
  destruct Hx as [(-> & -> & ->) | [(-> & -> & ->) | (-> & -> & ->)]].
  - cbn [app]. constructor. exact IH.
  - apply Permutation_cons_app. exact IH.
  - rewrite app_assoc. apply Permutation_cons_app.
    rewrite <- app_assoc. exact IH.
Qed.

Lemma label_tests (sentiment : str) :
  sentiment = u "positive" \/ sentiment = u "negative" \/ sentiment = u "neutral" ->
  (str_eqb sentiment (u "positive") = true /\ str_eqb sentiment (u "negative") = false
   /\ str_eqb sentiment (u "neutral") = false) \/
  (str_eqb sentiment (u "positive") = false /\ str_eqb sentiment (u "negative") = true
   /\ str_eqb sentiment (u "neutral") = false) \/
  (str_eqb sentiment (u "positive") = false /\ str_eqb sentiment (u "negative") = false
   /\ str_eqb sentiment (u "neutral") = true).
Proof.
  intros [-> | [-> | ->]]; [left | right; left | right; right];
    vm_compute; auto.
Qed.

(** X5: starting from the empty table, whatever calls were served, the
    answers to the three label queries together hold each review of the
    answer to the empty filter exactly once: every stored review is found
    under one and only one of [positive], [negative] and [neutral]. *)
Theorem labels_partition (m : list (option fault)) (ks : list call) :
  let c := run ks (connect (Some empty_table) m) in
  reachable 1 c ->
  exists all pos neg neu,
    ReviewService.get_reviews_by_sentiment [] c = (Ok all, advance c) /\
    ReviewService.get_reviews_by_sentiment (u "positive") c = (Ok pos, advance c) /\
    ReviewService.get_reviews_by_sentiment (u "negative") c = (Ok neg, advance c) /\
    ReviewService.get_reviews_by_sentiment (u "neutral") c = (Ok neu, advance c) /\
    Permutation all (pos ++ neg ++ neu).
Proof.
  intros c Hr. apply reachable_1 in Hr.
  pose proof (run_tidy ks _ (tidy_connect_empty labelled m)) as Hc. fold c in Hc.
  destruct (tidy_connection_table _ _ Hc) as (t & Hv & (_ & _ & HP)).
  assert (Hq : forall label,
             encodable label = true -> label <> [] ->
             ReviewService.get_reviews_by_sentiment label c
             = (Ok (filter (fun r => str_eqb (Review.sentiment r) label)
                           (map of_row (rows t))), advance c)).
  { intros label He Hne. destruct label as [|x l]; [contradiction|].
    cbn [ReviewService.get_reviews_by_sentiment].
    rewrite (fetch_by_sentiment_works _ c t Hr Hv He), filter_of_row. reflexivity. }
  exists (map of_row (rows t)). do 3 eexists.
  split; [apply fetch_all_works; assumption|].
  split; [apply Hq; [vm_compute; reflexivity | vm_compute; discriminate]|].
  split; [apply Hq; [vm_compute; reflexivity | vm_compute; discriminate]|].
  split; [apply Hq; [vm_compute; reflexivity | vm_compute; discriminate]|].
  apply filter_three_way. apply Forall_map.
  eapply Forall_impl; [|exact HP]. intros r Hrow.
  apply label_tests. change (Review.sentiment (of_row r)) with (row_sentiment r).
  unfold labelled in Hrow. rewrite Hrow. apply check_labels.
Qed.

Lemma labels_partition_witness :
  exists all pos neg neu,
    ReviewService.get_reviews_by_sentiment []
      (run [Add noon (u "хорошо"); Add noon (u "плохо"); Add noon []]
           (connect (Some empty_table) []))
    = (Ok all, advance (run [Add noon (u "хорошо"); Add noon (u "плохо"); Add noon []]
                            (connect (Some empty_table) []))) /\
    ReviewService.get_reviews_by_sentiment (u "positive")
      (run [Add noon (u "хорошо"); Add noon (u "плохо"); Add noon []]
           (connect (Some empty_table) []))
    = (Ok pos, advance (run [Add noon (u "хорошо"); Add noon (u "плохо"); Add noon []]
                            (connect (Some empty_table) []))) /\
    ReviewService.get_reviews_by_sentiment (u "negative")
      (run [Add noon (u "хорошо"); Add noon (u "плохо"); Add noon []]
           (connect (Some empty_table) []))
    = (Ok neg, advance (run [Add noon (u "хорошо"); Add noon (u "плохо"); Add noon []]
                            (connect (Some empty_table) []))) /\
    ReviewService.get_reviews_by_sentiment (u "neutral")
      (run [Add noon (u "хорошо"); Add noon (u "плохо"); Add noon []]
           (connect (Some empty_table) []))
    = (Ok neu, advance (run [Add noon (u "хорошо"); Add noon (u "плохо"); Add noon []]
                            (connect (Some empty_table) []))) /\
    Permutation all (pos ++ neg ++ neu).
Proof.
  apply (labels_partition [] [Add noon (u "хорошо"); Add noon (u "плохо"); Add noon []]).
  vm_compute. constructor.
Defined.

(** X6: a review that [add_review] has returned is the last review of the
    next [fetch_all], is in the answer to the query for its sentiment, and
    is in the answer to no query for another label. *)
Theorem add_review_then_query
        (now : datetime) (text : str) (r : Review.t) (c c' : Connection) :
  ReviewService.add_review now text c = (Ok r, c') ->
  reachable 1 c' ->
  exists earlier,
    ReviewRepository.fetch_all c' = (Ok (earlier ++ [r]), advance c') /\
    ReviewService.get_reviews_by_sentiment (Review.sentiment r) c'
    = (Ok (filter (fun x => str_eqb (Review.sentiment x) (Review.sentiment r)) earlier
           ++ [r]),
       advance c') /\
    (forall label answer c'',
        label <> [] ->
        label <> Review.sentiment r ->
        ReviewService.get_reviews_by_sentiment label c' = (Ok answer, c'') ->
        ~ In r answer).
Proof.
  intros E Hr. apply reachable_1 in Hr.
  apply add_review_stored_inv in E as (t & Hv & _ & _ & _ & -> & ->).
  cbn [Review.sentiment].
  set (r := {| Review.text := text; Review.sentiment := check text;
               Review.created_at := isoformat now;
               Review.id := Some (largest_rowid t + 1) |}).
  set (c' := {| disk := Some (append_row t text (check text) (isoformat now));
                txn := None; medium := tl (tl (medium c)) |}) in *.
  assert (Hv' : visible c' = Some (append_row t text (check text) (isoformat now)))
    by reflexivity.
  assert (Hrows : map of_row (rows (append_row t text (check text) (isoformat now)))
                  = map of_row (rows t) ++ [r]).
  { unfold append_row; cbn [rows]. rewrite map_app. reflexivity. }
  exists (map of_row (rows t)).
  split; [rewrite (fetch_all_works c' _ Hr Hv'), Hrows; reflexivity|]. split.
  - rewrite get_reviews_by_sentiment_cases, Hv', Hrows.
    pose proof (check_encodable text) as He.
    assert (Hne : check text <> [])
      by (destruct (check_labels text) as [-> | [-> | ->]]; vm_compute; discriminate).
    assert (Hlast : filter (fun x => str_eqb (Review.sentiment x) (check text)) [r] = [r])
      by (cbn [filter r Review.sentiment]; rewrite str_eqb_refl; reflexivity).
    rewrite filter_app, Hlast.
    destruct (check text) as [|x l]; [contradiction|]. rewrite He.
    destruct (medium c') as [|[f|] later]; [reflexivity | discriminate | reflexivity].
  - intros label answer c'' Hne Hneq Eq.
    apply get_reviews_by_sentiment_inv in Eq as (_ & _ & t' & Hvt & -> & _).
    rewrite Hv' in Hvt. injection Hvt as <-.
    destruct label as [|x l]; [contradiction|].
    rewrite filter_In, str_eqb_eq. intros [_ Hs]. cbn [Review.sentiment r] in Hs.
    congruence.
Qed.

Lemma add_review_then_query_witness :
  exists earlier,
    ReviewRepository.fetch_all
      (snd (ReviewService.add_review noon (u "хорошо") (connect (Some empty_table) [])))
    = (Ok (earlier ++ [ {| Review.text := u "хорошо";
                           Review.sentiment := check (u "хорошо");
                           Review.created_at := isoformat noon;
                           Review.id := Some 1 |} ]),
       advance (snd (ReviewService.add_review noon (u "хорошо")
                       (connect (Some empty_table) [])))).
Proof.
  assert (H1 : ReviewService.add_review noon (u "хорошо") (connect (Some empty_table) [])
               = (Ok {| Review.text := u "хорошо";
                        Review.sentiment := check (u "хорошо");
                        Review.created_at := isoformat noon;
                        Review.id := Some 1 |},
                  snd (ReviewService.add_review noon (u "хорошо")
                         (connect (Some empty_table) []))))
    by (vm_compute; reflexivity).
  assert (H2 : reachable 1 (snd (ReviewService.add_review noon (u "хорошо")
                                   (connect (Some empty_table) []))))
    by (vm_compute; constructor).
  destruct (add_review_then_query _ _ _ _ _ H1 H2) as (earlier & Hf & _).
  exists earlier. exact Hf.
Defined.

(** ** Creating the table *)

Lemma init_db_works (c : Connection) :
  hd None (medium c) = None ->
  init_db c
  = (Ok tt,
     {| disk := Some (match disk c with Some t => t | None => empty_table end);
        txn := txn c;
        medium := tl (medium c) |}).
Proof.
  intros Hr. unfold init_db. erewrite bind_ok by (apply access_works; exact Hr).
  unfold advance; cbn [disk txn medium].
  destruct (disk c); reflexivity.
Qed.

(** X7: [init_db] creates the empty table when there is none and leaves
    an existing table, with its reviews and its rowid sequence, as it is;
    run again it changes nothing; when the file cannot be reached it
    raises and creates nothing. *)
Theorem init_db_keeps_reviews (c : Connection) :
  (reachable 1 c ->
   init_db c
   = (Ok tt,
      {| disk := Some (match disk c with Some t => t | None => empty_table end);
         txn := txn c;
         medium := tl (medium c) |}) /\
   stored (disk (snd (init_db c))) = stored (disk c) /\
   (reachable 2 c ->
    disk (snd (init_db (snd (init_db c)))) = disk (snd (init_db c)))) /\
  (forall f later,
      medium c = Some f :: later ->
      fst (init_db c) = Raise (sqlite3_Error (rc f)) /\
      disk (snd (init_db c)) = disk c).
Proof.
  split.
  - intros Hr. apply reachable_1 in Hr.
    pose proof (init_db_works c Hr) as E.
    split; [exact E|]. rewrite E. cbn [snd disk]. split.
    + destruct (disk c); reflexivity.
    + intros Hr2. apply reachable_S in Hr2 as [_ Hr2]. apply reachable_1 in Hr2.
      unfold init_db. erewrite bind_ok by (apply access_works; exact Hr2).
      reflexivity.
  - intros f later Hm. unfold init_db.
    erewrite bind_raise by (apply access_fails; exact Hm). split; reflexivity.
Qed.

Lemma init_db_keeps_reviews_witness :
  init_db (connect None [])
  = (Ok tt,
     {| disk := Some (match disk (connect None []) with
                      | Some t => t
                      | None => empty_table
                      end);
        txn := txn (connect None []);
        medium := tl (medium (connect None [])) |}).
Proof.
  apply (proj1 (init_db_keeps_reviews (connect None []))).
  vm_compute. constructor.
Defined.

(** X8: while the table has not been created, [add_review] raises the
    error of the missing table and stores nothing; once [init_db] has run
    on the new file, the same call stores the review under the identity
    1. *)
Theorem table_must_exist (now : datetime) (text : str) (m : list (option fault)) :
  (reachable 1 (connect None m) ->
   ReviewService.add_review now text (connect None m)
   = (Raise (sqlite3_Error SQLITE_ERROR), connect None (tl m))) /\
  (reachable 3 (connect None m) ->
   encodable text = true ->
   (init_db ;; ReviewService.add_review now text) (connect None m)
   = (Ok {| Review.text := text; Review.sentiment := check text;
            Review.created_at := isoformat now; Review.id := Some 1 |},
      connect (Some (append_row empty_table text (check text) (isoformat now)))
              (tl (tl (tl m))))).
Proof.
  split.
  - intros Hr. apply reachable_1 in Hr.
    pose proof (insert_cases
                  {| Review.text := text; Review.created_at := isoformat now;
                     Review.sentiment := check text; Review.id := None |}
                  (connect None m)) as H.
    unfold ReviewService.add_review; cbv zeta.
    inversion H as [f later Hm | Hm Hv | t Hm Hv | t Hm Hv | t f later Hm Hv | t Hm Hv];
      try discriminate.
    + cbn in Hm, Hr. rewrite Hm in Hr. discriminate.
    + reflexivity.
  - intros Hr He.
    apply reachable_S in Hr as [H1 Hr].
    erewrite bind_ok by (apply init_db_works; exact H1).
    cbn [disk txn medium connect] in *.
    rewrite (add_review_stores now text
               {| disk := Some empty_table; txn := None; medium := tl m |}
               empty_table eq_refl Hr He);
      [reflexivity | vm_compute; reflexivity].
Qed.

Lemma table_must_exist_witness :
  ReviewService.add_review noon (u "хорошо") (connect None [])
  = (Raise (sqlite3_Error SQLITE_ERROR), connect None (tl [])) /\
  (init_db ;; ReviewService.add_review noon (u "хорошо")) (connect None [])
  = (Ok {| Review.text := u "хорошо"; Review.sentiment := check (u "хорошо");
           Review.created_at := isoformat noon; Review.id := Some 1 |},
     connect (Some (append_row empty_table (u "хорошо") (check (u "хорошо"))
                               (isoformat noon)))
             (tl (tl (tl [])))).
Proof.
  split.
  - apply (proj1 (table_must_exist noon (u "хорошо") [])). vm_compute. constructor.
  - apply (proj2 (table_must_exist noon (u "хорошо") [])).
    + vm_compute. constructor.
    + vm_compute. reflexivity.
Defined.

(** ** What [add_review] refuses *)

(** X9: on a connection that works, [add_review] raises
    [UnicodeEncodeError] for a text with a surrogate code point; the
    transaction that was opened for the insert stays open and holds what
    the connection read before, without a new row.  Once the largest rowid
    is in use, [add_review] raises the error of the full table and the
    open transaction is rolled back, with whatever was pending in it.  In
    both cases the committed table is as it was. *)
Theorem add_review_refused
        (now : datetime) (text : str) (c : Connection) (t : Table) :
  visible c = Some t ->
  reachable 1 c ->
  (encodable text = false ->
   ReviewService.add_review now text c
   = (Raise UnicodeEncodeError,
      {| disk := disk c; txn := Some t; medium := tl (medium c) |})) /\
  (encodable text = true ->
   MAX_ROWID <= largest_rowid t ->
   ReviewService.add_review now text c
   = (Raise (sqlite3_Error SQLITE_FULL),
      {| disk := disk c; txn := None; medium := tl (medium c) |})).
Proof.
  intros Hv Hr. apply reachable_1 in Hr.
  pose proof (check_encodable text) as Hs.
  pose proof (isoformat_encodable now) as Hd.
  unfold ReviewService.add_review; cbv zeta.
  set (review := {| Review.text := text; Review.created_at := isoformat now;
                    Review.sentiment := check text; Review.id := None |}).
  pose proof (insert_cases review c) as H.
  split.
  - intros He.
    inversion H as [f later Hm | Hm Hv' | t' Hm Hv' He' | t' Hm Hv' He' Hfull
                   | t' f later Hm Hv' He' Hroom Hm2 | t' Hm Hv' He' Hroom Hm2];
      unfold review in *; cbn [Review.text Review.sentiment Review.created_at] in *.
    + rewrite Hm in Hr; discriminate.
    + congruence.
    + assert (t' = t) by congruence; subst. reflexivity.
    + rewrite He in He'; discriminate.
    + rewrite He in He'; discriminate.
    + rewrite He in He'; discriminate.
  - intros He Hfull.
    inversion H as [f later Hm | Hm Hv' | t' Hm Hv' He' | t' Hm Hv' He' Hfull'
                   | t' f later Hm Hv' He' Hroom Hm2 | t' Hm Hv' He' Hroom Hm2];
      unfold review in *; cbn [Review.text Review.sentiment Review.created_at] in *.
    + rewrite Hm in Hr; discriminate.
    + congruence.
    + rewrite He, Hs, Hd in He'; discriminate.
    + reflexivity.
    + assert (t' = t) by congruence; subst. lia.
    + assert (t' = t) by congruence; subst. lia.
Qed.

Lemma add_review_refused_witness :
  ReviewService.add_review noon [0xD800] (connect (Some empty_table) [])
  = (Raise UnicodeEncodeError,
     {| disk := disk (connect (Some empty_table) []);
        txn := Some empty_table;
        medium := tl (medium (connect (Some empty_table) [])) |}) /\
  ReviewService.add_review noon (u "хорошо")
    {| disk := Some {| rows := []; sequence := MAX_ROWID - 1 |};
       txn := Some (append_row {| rows := []; sequence := MAX_ROWID - 1 |}
                               (u "плохо") (check (u "плохо")) (isoformat noon));
       medium := [] |}
  = (Raise (sqlite3_Error SQLITE_FULL),
     {| disk := Some {| rows := []; sequence := MAX_ROWID - 1 |};
        txn := None;
        medium := tl [] |}).
Proof.
  split.
  - apply (proj1 (add_review_refused noon [0xD800] (connect (Some empty_table) [])
                    empty_table eq_refl ltac:(vm_compute; constructor))).
    vm_compute. reflexivity.
  - apply (proj2 (add_review_refused noon (u "хорошо")
                    {| disk := Some {| rows := []; sequence := MAX_ROWID - 1 |};
                       txn := Some (append_row {| rows := []; sequence := MAX_ROWID - 1 |}
                                               (u "плохо") (check (u "плохо"))
                                               (isoformat noon));
                       medium := [] |}
                    (append_row {| rows := []; sequence := MAX_ROWID - 1 |}
                                (u "плохо") (check (u "плохо")) (isoformat noon))
                    eq_refl ltac:(vm_compute; constructor))).
    + vm_compute. reflexivity.
    + vm_compute. discriminate.
Defined.

(** ** Requests *)

(** What a [POST] comes to, case by case. *)
Lemma post_cases (now : datetime) (data : json) (c : Connection) :
  handle (POST now data) c
  = match data with
    | JObject items =>
        if negb (truthy (dict_get items (u "text") JNull))
        then (Responded (JObject [(u "error", JString (u "Field 'text' is required"))]) 400, c)
        else
          match medium c with
          | Some f :: later =>
              (Raised (sqlite3_Error (rc f)),
               {| disk := disk c;
                  txn := if txn_survives f then txn c else None;
                  medium := later |})
          | _ =>
              match dict_get items (u "text") JNull with
              | JString s =>
                  match ReviewService.add_review now s (advance c) with
                  | (Ok review, c') => (Responded (asdict review) 201, close_connection c')
                  | (Raise e, c') => (Raised e, close_connection c')
                  end
              | _ => (RaisedAttributeError, close_connection (advance c))
              end
          end
    | _ => (RaisedAttributeError, c)
    end.
Proof.
  unfold handle, request, add_review.
  destruct data as [| b | n | bits | s | elements | items]; try reflexivity.
  cbv zeta.
  destruct (negb (truthy (dict_get items (u "text") JNull))); [reflexivity|].
  unfold get_db; cbn [_database connection].
  destruct (access_cases c) as [[Hm Ha]|(f & later & Hm & Ha)]; rewrite Ha.
  - cbn [connection _database].
    destruct (dict_get items (u "text") JNull) as [| b | n | bits | s | elements | items'];
      destruct (medium c) as [|[f|] later]; try discriminate; try reflexivity;
      destruct (ReviewService.add_review now s (advance c)) as [[r|e] c']; reflexivity.
  - rewrite Hm. reflexivity.
Qed.

(** What a [GET] comes to, case by case. *)
Lemma get_cases (sentiment : option str) (c : Connection) :
  handle (GET sentiment) c
  = match medium c with
    | Some f :: later =>
        (Raised (sqlite3_Error (rc f)),
         {| disk := disk c;
            txn := if txn_survives f then txn c else None;
            medium := later |})
    | _ =>
        match ReviewService.get_reviews_by_sentiment
                (match sentiment with Some s => s | None => [] end) (advance c) with
        | (Ok reviews, c') =>
            (Responded (JArray (map asdict reviews)) 200, close_connection c')
        | (Raise e, c') => (Raised e, close_connection c')
        end
    end.
Proof.
  unfold handle, request, get_reviews. cbv zeta.
  unfold get_db; cbn [_database connection].
  destruct (access_cases c) as [[Hm Ha]|(f & later & Hm & Ha)]; rewrite Ha.
  - cbn [connection _database].
    destruct (medium c) as [|[f|] later]; try discriminate;
      destruct (ReviewService.get_reviews_by_sentiment
                  (match sentiment with Some s => s | None => [] end) (advance c))
        as [[r|e] c']; reflexivity.
  - rewrite Hm. reflexivity.
Qed.

(** X10: a [POST] whose body is an object without a [text], or with a
    [text] that is false (the empty string, [null], zero, an empty list or
    object, [false]), is answered 400 with the error message, and neither
    the file nor the table is touched. *)
Theorem post_without_text
        (now : datetime) (items : list (str * json)) (c : Connection) :
  truthy (dict_get items (u "text") JNull) = false ->
  handle (POST now (JObject items)) c
  = (Responded (JObject [(u "error", JString (u "Field 'text' is required"))]) 400, c).
Proof.
  intros H. rewrite post_cases, H. reflexivity.
Qed.

Lemma post_without_text_witness :
  handle (POST noon (JObject [(u "text", JString [])])) (connect (Some empty_table) [])
  = (Responded (JObject [(u "error", JString (u "Field 'text' is required"))]) 400,
     connect (Some empty_table) []) /\
  handle (POST noon (JObject [(u "comment", JString (u "хорошо"))]))
         (connect (Some empty_table) [])
  = (Responded (JObject [(u "error", JString (u "Field 'text' is required"))]) 400,
     connect (Some empty_table) []).
Proof.
  split; apply post_without_text; vm_compute; reflexivity.
Defined.

(** X11: a [POST] with a non-empty, encodable [text], on a connection
    that works three times (to open the file, to insert and to commit) and
    a table that is not full, is answered 201 with the stored review, which
    carries the next identity and the label of the text; the review is
    committed and the connection closed. *)
Theorem post_created
        (now : datetime) (items : list (str * json)) (s : str)
        (c : Connection) (t : Table) :
  dict_get items (u "text") JNull = JString s ->
  s <> [] ->
  encodable s = true ->
  visible c = Some t ->
  reachable 3 c ->
  largest_rowid t < MAX_ROWID ->
  handle (POST now (JObject items)) c
  = (Responded (JObject [ (u "text", JString s);
                          (u "sentiment", JString (check s));
                          (u "created_at", JString (isoformat now));
                          (u "id", JInt (largest_rowid t + 1)) ]) 201,
     {| disk := Some (append_row t s (check s) (isoformat now));
        txn := None;
        medium := tl (tl (tl (medium c))) |}).
Proof.
  intros Ht Hs He Hv Hr Hroom. rewrite post_cases, Ht.
  apply reachable_S in Hr as [Hm Hr].
  assert (Htr : truthy (JString s) = true) by (destruct s; [contradiction | reflexivity]).
  rewrite Htr. cbn [negb].
  rewrite (add_review_stores now s (advance c) t Hv Hr He Hroom).
  unfold close_connection, advance; cbn [disk txn medium].
  destruct (medium c) as [|[f|] later]; [reflexivity | discriminate | reflexivity].
Qed.

Lemma post_created_witness :
  handle (POST noon (JObject [(u "text", JString (u "хорошо"))]))
         (connect (Some empty_table) [])
  = (Responded (JObject [ (u "text", JString (u "хорошо"));
                          (u "sentiment", JString (check (u "хорошо")));
                          (u "created_at", JString (isoformat noon));
                          (u "id", JInt (largest_rowid empty_table + 1)) ]) 201,
     {| disk := Some (append_row empty_table (u "хорошо") (check (u "хорошо"))
                                 (isoformat noon));
        txn := None;
        medium := tl (tl (tl (medium (connect (Some empty_table) [])))) |}).
Proof.
  apply (post_created noon [(u "text", JString (u "хорошо"))] (u "хорошо")
                      (connect (Some empty_table) []) empty_table).
  - vm_compute. reflexivity.
  - vm_compute. discriminate.
  - vm_compute. reflexivity.
  - reflexivity.
  - vm_compute. repeat constructor.
  - vm_compute. reflexivity.
Defined.

Lemma add_review_raise_disk (now : datetime) (text : str) (c c' : Connection) (e : exn) :
  ReviewService.add_review now text c = (Raise e, c') -> disk c' = disk c.
Proof.
  unfold ReviewService.add_review; cbv zeta. intros E.
  apply insert_raise_inv in E as [Hd _]. exact Hd.
Qed.

(** X12: a [POST] that begins without an open transaction ends without
    one.  When it is answered 201 the table has gained exactly the
    returned review; in every other case, whatever was raised and
    wherever, the table is as it was before. *)
Theorem post_stores_iff_created (now : datetime) (data : json) (c : Connection) :
  txn c = None ->
  txn (snd (handle (POST now data) c)) = None /\
  (forall body,
      fst (handle (POST now data) c) = Responded body 201 ->
      exists s t,
        s <> [] /\
        disk c = Some t /\
        body = asdict {| Review.text := s; Review.sentiment := check s;
                         Review.created_at := isoformat now;
                         Review.id := Some (largest_rowid t + 1) |} /\
        disk (snd (handle (POST now data) c))
        = Some (append_row t s (check s) (isoformat now))) /\
  ((forall body, fst (handle (POST now data) c) <> Responded body 201) ->
   disk (snd (handle (POST now data) c)) = disk c).
Proof.
  intros Htxn. rewrite post_cases.
  destruct data as [| b | n | bits | s0 | elements | items];
    try (cbn [fst snd]; split; [exact Htxn|]; split; [discriminate | reflexivity]).
  destruct (negb (truthy (dict_get items (u "text") JNull))) eqn:Etr.
  { cbn [fst snd]. split; [exact Htxn|]. split; [discriminate | reflexivity]. }
  assert (Hfault : forall f later,
             txn {| disk := disk c;
                    txn := if txn_survives f then txn c else None;
                    medium := later |} = None).
  { intros f later. cbn [txn]. rewrite Htxn. destruct (txn_survives f); reflexivity. }
  destruct (dict_get items (u "text") JNull) as [| b | n | bits | s | elements | items'];
    try (destruct (medium c) as [|[f|] later]; cbn [fst snd];
         (split; [first [reflexivity | apply Hfault]|]);
         (split; [discriminate | reflexivity])).
  assert (Hs : s <> []) by (destruct s; [discriminate | discriminate]).
  assert (Hadd :
            let out := match ReviewService.add_review now s (advance c) with
                       | (Ok review, c') => (Responded (asdict review) 201, close_connection c')
                       | (Raise e, c') => (Raised e, close_connection c')
                       end in
            txn (snd out) = None /\
            (forall body,
                fst out = Responded body 201 ->
                exists s1 t,
                  s1 <> [] /\ disk c = Some t /\
                  body = asdict {| Review.text := s1; Review.sentiment := check s1;
                                   Review.created_at := isoformat now;
                                   Review.id := Some (largest_rowid t + 1) |} /\
                  disk (snd out) = Some (append_row t s1 (check s1) (isoformat now))) /\
            ((forall body, fst out <> Responded body 201) -> disk (snd out) = disk c)).
  { destruct (ReviewService.add_review now s (advance c)) as [[r|e] c'] eqn:E; cbv zeta;
      cbn [fst snd].
    - apply add_review_stored_inv in E as (t & Hv & _ & _ & _ & -> & ->).
      split; [reflexivity|]. split.
      + intros body [= <-]. exists s, t. repeat split; try assumption; try reflexivity.
        destruct (visible_cases _ _ Hv) as [Ht|[_ Hd]]; [|exact Hd].
        cbn in Ht. congruence.
      + intros Hno. exfalso. eapply Hno. reflexivity.
    - split; [reflexivity|]. split; [discriminate|]. intros _.
      apply add_review_raise_disk in E. exact E. }
  destruct (medium c) as [|[f|] later].
  - exact Hadd.
  - cbn [fst snd]. split; [apply Hfault|]. split; [discriminate | reflexivity].
  - exact Hadd.
Qed.

Lemma post_stores_iff_created_witness :
  txn (snd (handle (POST noon (JObject [(u "text", JInt 5)]))
                   (connect (Some empty_table) []))) = None /\
  disk (snd (handle (POST noon (JObject [(u "text", JInt 5)]))
                    (connect (Some empty_table) [])))
  = disk (connect (Some empty_table) []).
Proof.
  destruct (post_stores_iff_created noon (JObject [(u "text", JInt 5)])
              (connect (Some empty_table) []) eq_refl) as (H1 & _ & H3).
  split; [exact H1|]. apply H3. intros body. vm_compute. discriminate.
Defined.

Lemma handle_tidy (q : http_request) (c : Connection) :
  txn c = None ->
  tidy_connection posted c ->
  txn (snd (handle q c)) = None /\ tidy_connection posted (snd (handle q c)).
Proof.
  intros Htxn Hc.
  assert (Hadv : tidy_connection posted (advance c)) by exact Hc.
  assert (Hfault : forall f later,
             txn {| disk := disk c;
                    txn := if txn_survives f then txn c else None;
                    medium := later |} = None /\
             tidy_connection posted
               {| disk := disk c;
                  txn := if txn_survives f then txn c else None;
                  medium := later |}).
  { intros f later. destruct Hc as [Hd _]. unfold tidy_connection. cbn [txn disk].
    rewrite Htxn. destruct (txn_survives f); auto. }
  destruct q as [now data|sentiment].
  - rewrite post_cases.
    destruct data as [| b | n | bits | s0 | elements | items]; try (split; assumption).
    destruct (negb (truthy (dict_get items (u "text") JNull))) eqn:Etr;
      [split; assumption|].
    destruct (dict_get items (u "text") JNull) as [| b | n | bits | s | elements | items'];
      try (destruct (medium c) as [|[f|] later]; cbn [snd];
           first [apply Hfault
                 | split; [reflexivity | apply close_connection_tidy; exact Hadv]]).
    assert (Hs : s <> []) by (destruct s; discriminate).
    assert (Hadd : tidy_connection posted (snd (ReviewService.add_review now s (advance c)))).
    { unfold ReviewService.add_review; cbv zeta.
      apply insert_tidy; [split; [exact Hs | reflexivity] | exact Hadv]. }
    destruct (ReviewService.add_review now s (advance c)) as [[r|e] c'];
      cbn [snd] in Hadd;
      (destruct (medium c) as [|[f|] later]; cbn [snd];
       first [apply Hfault
             | split; [reflexivity | apply close_connection_tidy; exact Hadd]]).
  - rewrite get_cases.
    pose proof (get_reviews_by_sentiment_tidy posted
                  (match sentiment with Some s => s | None => [] end)
                  (advance c) Hadv) as Hget.
    destruct (ReviewService.get_reviews_by_sentiment
                (match sentiment with Some s => s | None => [] end) (advance c))
      as [[r|e] c']; cbn [snd] in Hget;
      (destruct (medium c) as [|[f|] later]; cbn [snd];
       first [apply Hfault
             | split; [reflexivity | apply close_connection_tidy; exact Hget]]).
Qed.

Lemma handle_all_tidy (qs : list http_request) (c : Connection) :
  txn c = None ->
  tidy_connection posted c ->
  txn (handle_all qs c) = None /\ tidy_connection posted (handle_all qs c).
Proof.
  revert c; induction qs as [|q qs IH]; intros c Htxn Hc; [split; assumption|].
  change (handle_all (q :: qs) c) with (handle_all qs (snd (handle q c))).
  destruct (handle_tidy q c Htxn Hc) as [H1 H2]. apply IH; assumption.
Qed.

(** X13: after any sequence of requests on a database that started with
    the empty table, no transaction is left open, and a [GET] without
    parameter that reaches the file is answered 200 with the reviews
    numbered 1, 2, ... in this order, each with a text that is not empty
    and with the label of that text. *)
Theorem posted_reviews (m : list (option fault)) (qs : list http_request) :
  let c := handle_all qs (connect (Some empty_table) m) in
  txn c = None /\
  (reachable 2 c ->
   exists reviews,
     handle (GET None) c
     = (Responded (JArray (map asdict reviews)) 200,
        {| disk := disk c; txn := None; medium := tl (tl (medium c)) |}) /\
     map Review.id reviews
     = map (fun i => Some (Z.of_nat i)) (seq 1 (length reviews)) /\
     Forall (fun r => Review.text r <> [] /\
                      Review.sentiment r = check (Review.text r)) reviews).
Proof.
  intros c.
  destruct (handle_all_tidy qs (connect (Some empty_table) m) eq_refl
              (tidy_connect_empty posted m)) as [Htxn Hc].
  fold c in Htxn, Hc. split; [exact Htxn|].
  intros Hr. apply reachable_S in Hr as [Hm Hr]. apply reachable_1 in Hr.
  destruct (tidy_connection_table _ _ Hc) as (t & Hv & Ht).
  exists (map of_row (rows t)). split; [|split].
  - rewrite get_cases.
    change (ReviewService.get_reviews_by_sentiment [] (advance c))
      with (ReviewRepository.fetch_all (advance c)).
    rewrite (fetch_all_works (advance c) t Hr Hv).
    unfold close_connection, advance; cbn [disk txn medium].
    destruct (medium c) as [|[f|] later]; [reflexivity | discriminate | reflexivity].
  - eapply tidy_ids; exact Ht.
  - destruct Ht as (_ & _ & HP). apply Forall_map.
    eapply Forall_impl; [|exact HP]. intros r Hrow. exact Hrow.
Qed.

Lemma posted_reviews_witness :
  txn (handle_all [POST noon (JObject [(u "text", JString (u "хорошо"))]);
                   POST noon (JObject [(u "text", JString [])]);
                   GET (Some (u "positive"))]
                  (connect (Some empty_table) [])) = None.
Proof.
  exact (proj1 (posted_reviews []
                  [POST noon (JObject [(u "text", JString (u "хорошо"))]);
                   POST noon (JObject [(u "text", JString [])]);
                   GET (Some (u "positive"))])).
Defined.

(** X14: a [GET] that begins without an open transaction leaves the table
    as it was and no transaction open, whatever it was asked and whatever
    it came to; without the parameter it is the [GET] with the empty
    parameter. *)
Theorem get_reads_only (sentiment : option str) (c : Connection) :
  txn c = None ->
  disk (snd (handle (GET sentiment) c)) = disk c /\
  txn (snd (handle (GET sentiment) c)) = None /\
  handle (GET None) c = handle (GET (Some [])) c.
Proof.
  intros Htxn. split; [|split]; [| |reflexivity].
  - rewrite get_cases.
    destruct (fetch_state (match sentiment with Some s => s | None => [] end) (advance c))
      as [Hd _].
    destruct (ReviewService.get_reviews_by_sentiment
                (match sentiment with Some s => s | None => [] end) (advance c))
      as [[r|e] c']; cbn [snd] in Hd;
      (destruct (medium c) as [|[f|] later]; cbn [snd disk close_connection];
       first [reflexivity | exact Hd]).
  - rewrite get_cases.
    destruct (ReviewService.get_reviews_by_sentiment
                (match sentiment with Some s => s | None => [] end) (advance c))
      as [[r|e] c'];
      (destruct (medium c) as [|[f|] later]; cbn [snd txn close_connection];
       first [reflexivity | rewrite Htxn; destruct (txn_survives f); reflexivity]).
Qed.

Lemma get_reads_only_witness :
  disk (snd (handle (GET (Some (u "positive"))) (connect (Some empty_table) [])))
  = disk (connect (Some empty_table) []).
Proof.
  exact (proj1 (get_reads_only (Some (u "positive")) (connect (Some empty_table) [])
                  eq_refl)).
Defined.

(** ** A connection used again after a failed commit *)

(** X15: [insert] does not roll back.  When the commit of an
    [add_review] fails and leaves the transaction open, the call raises,
    yet its row stays in the transaction: the next [add_review] on the
    same connection that succeeds commits both rows, and its own review
    gets the identity after the one of the review whose call had
    failed. *)
Theorem failed_commit_stored_by_next_add
        (now1 now2 : datetime) (text1 text2 : str) (c : Connection) (t : Table)
        (f : fault) (later : list (option fault)) :
  visible c = Some t ->
  encodable text1 = true ->
  encodable text2 = true ->
  largest_rowid t + 1 < MAX_ROWID ->
  medium c = None :: Some f :: None :: None :: later ->
  txn_survives f = true ->
  exists c1,
    ReviewService.add_review now1 text1 c = (Raise (sqlite3_Error (rc f)), c1) /\
    disk c1 = disk c /\
    ReviewService.add_review now2 text2 c1
    = (Ok {| Review.text := text2; Review.sentiment := check text2;
             Review.created_at := isoformat now2;
             Review.id := Some (largest_rowid t + 2) |},
       {| disk := Some (append_row (append_row t text1 (check text1) (isoformat now1))
                                   text2 (check text2) (isoformat now2));
          txn := None;
          medium := later |}).
Proof.
  intros Hv He1 He2 Hroom Hm Hs.
  pose proof (check_encodable text1) as Hl.
  pose proof (isoformat_encodable now1) as Hd.
  exists {| disk := disk c;
            txn := Some (append_row t text1 (check text1) (isoformat now1));
            medium := None :: None :: later |}.
  split; [|split; [reflexivity|]].
  - unfold ReviewService.add_review; cbv zeta.
    set (review := {| Review.text := text1; Review.created_at := isoformat now1;
                      Review.sentiment := check text1; Review.id := None |}).
    pose proof (insert_cases review c) as H.
    inversion H as [f' later' Hm' | Hm' Hv' | t' Hm' Hv' He' | t' Hm' Hv' He' Hfull
                   | t' f' later' Hm' Hv' He' Hroom' Hm2 | t' Hm' Hv' He' Hroom' Hm2];
      unfold review in *; cbn [Review.text Review.sentiment Review.created_at] in *.
    + rewrite Hm in Hm'; discriminate.
    + congruence.
    + rewrite He1, Hl, Hd in He'; discriminate.
    + assert (t' = t) by congruence; subst. lia.
    + assert (t' = t) by congruence; subst.
      rewrite Hm in Hm2. cbn in Hm2. injection Hm2 as <- <-. rewrite Hs. reflexivity.
    + rewrite Hm in Hm2. discriminate.
  - rewrite (add_review_stores now2 text2
               {| disk := disk c;
                  txn := Some (append_row t text1 (check text1) (isoformat now1));
                  medium := None :: None :: later |}
               (append_row t text1 (check text1) (isoformat now1)) eq_refl).
    + rewrite largest_append_row. cbn [medium tl].
      replace (largest_rowid t + 1 + 1) with (largest_rowid t + 2) by lia.
      reflexivity.
    + repeat constructor.
    + exact He2.
    + rewrite largest_append_row. exact Hroom.
Qed.

Lemma failed_commit_stored_by_next_add_witness :
  exists c1,
    ReviewService.add_review noon (u "хорошо")
      (connect (Some empty_table)
               [None; Some {| rc := 5; txn_survives := true |}; None; None])
    = (Raise (sqlite3_Error 5), c1) /\
    disk c1 = Some empty_table /\
    ReviewService.add_review noon (u "плохо") c1
    = (Ok {| Review.text := u "плохо"; Review.sentiment := check (u "плохо");
             Review.created_at := isoformat noon;
             Review.id := Some (largest_rowid empty_table + 2) |},
       {| disk := Some (append_row
                          (append_row empty_table (u "хорошо") (check (u "хорошо"))
                                      (isoformat noon))
                          (u "плохо") (check (u "плохо")) (isoformat noon));
          txn := None;
          medium := [] |}).
Proof.
  apply (failed_commit_stored_by_next_add noon noon (u "хорошо") (u "плохо")
           (connect (Some empty_table)
                    [None; Some {| rc := 5; txn_survives := true |}; None; None])
           empty_table {| rc := 5; txn_survives := true |} []).
  - reflexivity.
  - vm_compute. reflexivity.
  - vm_compute. reflexivity.
  - vm_compute. reflexivity.
  - reflexivity.
  - reflexivity.
Defined.
